(** * PlanetViewer: the catalog store, the bulk loader and the classifier

    A shallow embedding of the non-UI part of [PlanetViewer.py]: the
    helpers [try_int], [try_float] and [categorize_type], and the class
    [EveDB] with its CSV importers, the transactional rebuild of the
    [planets] table and the aggregate queries.

    What is SQLite's and not the program's is modelled as follows.  A table
    with an INTEGER PRIMARY KEY is a finite map from the key to the other
    columns, and INSERT OR REPLACE is the insertion into that map.  A column
    holds the value that was bound to the statement (SQLite turns a NaN
    bound to a REAL column into NULL; the model keeps the float).  NULL
    sorts before every value, GROUP BY returns its groups in ascending order
    of the key, [TRIM], [LOWER] and [NOCASE] work on ASCII.  A transaction is
    a copy of the database taken at BEGIN, dropped by COMMIT and put back by
    ROLLBACK; index creation and removal are part of it, PRAGMA settings are
    not.  Outside an explicit transaction the [sqlite3] module opens one
    before the first statement that changes rows.

    A call that leaves the program can raise: a statement sent to the
    database (a full disk, a locked file, a value that cannot be bound, such
    as an integer outside 64 bits, for which [sqlite3] raises
    [OverflowError]), the opening or the reading of a file, a transfer over
    the network.  These calls are numbered in execution order and an oracle
    tells which of them raise; a run in which none raises is the run under
    [no_failure]. *)

From Stdlib Require Import ZArith Floats Ascii DecimalString.
From stdpp Require Import gmap strings list sorting.

Set Warnings "-abstract-large-number".
Local Open Scope string_scope.

(** ** Text helpers

    Strings are byte strings (UTF-8).  [str.lower()], SQL [LOWER] and
    [COLLATE NOCASE] fold the letters [A]..[Z]; bytes outside ASCII are left
    alone.  For the substring tests of the classifier this is what Python's
    Unicode [lower] does: the only characters outside ASCII whose lower case
    contains an ASCII letter are U+0130, which gives [i] followed by a
    combining dot, and U+212A, which gives [k], and neither can complete one
    of the ten keywords. *)

Module Text.

Definition lower_ascii (c : ascii) : ascii :=
  let n := Ascii.N_of_ascii c in
  if ((65 <=? n) && (n <=? 90))%N then Ascii.ascii_of_N (n + 32) else c.

Fixpoint lower (s : string) : string :=
  match s with
  | EmptyString => EmptyString
  | String c s' => String (lower_ascii c) (lower s')
  end.

(** [is_prefix p s]: [s] starts with [p]. *)
Fixpoint is_prefix (p s : string) : bool :=
  match p, s with
  | EmptyString, _ => true
  | String a p', String b s' => if Ascii.eqb a b then is_prefix p' s' else false
  | String _ _, EmptyString => false
  end.

(** Python's [needle in hay] on strings. *)
Fixpoint contains (needle hay : string) : bool :=
  is_prefix needle hay ||
  match hay with
  | EmptyString => false
  | String _ hay' => contains needle hay'
  end.

(** SQL [TRIM(x)]: spaces (0x20) are removed at both ends. *)
Fixpoint ltrim (s : string) : string :=
  match s with
  | String " "%char s' => ltrim s'
  | _ => s
  end.

Definition sql_trim (s : string) : string :=
  String.rev (ltrim (String.rev (ltrim s))).

End Text.

(** ** Module-level constants *)

Definition BATCH_SIZE : nat := 10000.
Definition PLANET_BATCH_SIZE : nat := 20000.

Definition PLANET_TYPES : list string :=
  [ "Temperate"; "Ice"; "Gas"; "Oceanic"; "Lava";
    "Barren"; "Storm"; "Plasma"; "Shattered"; "Scorched Barren" ].

(** ** The classifier *)

Definition categorize_type (type_name : option string) : string :=
  let t := Text.lower (default "" type_name) in
  if Text.contains "temperate" t then "Temperate"
  else if Text.contains "ice" t then "Ice"
  else if Text.contains "gas" t then "Gas"
  else if Text.contains "oceanic" t then "Oceanic"
  else if Text.contains "lava" t then "Lava"
  else if Text.contains "plasma" t then "Plasma"
  else if Text.contains "storm" t then "Storm"
  else if Text.contains "shattered" t then "Shattered"
  else if Text.contains "scorched" t then "Scorched Barren"
  else if Text.contains "barren" t then "Barren"
  else "Barren".

(** ** Builtins

    [int] and [float] are Python's own string parsers; the program only
    depends on whether they succeed and on the value they return, so they
    are an interface here.  Floats are IEEE 754 binary64, as in Python. *)

Class Builtins := {
  py_int : string -> option Z;
  py_float : string -> option float
}.

(** An instance for closed examples: unsigned and signed decimal literals
    made of ASCII digits only, on which it agrees with Python ([float] up
    to [2^53], where the conversion is exact). *)

Module Sample.

Fixpoint digits (acc : Z) (s : string) : option Z :=
  match s with
  | EmptyString => Some acc
  | String c s' =>
      match Ascii.is_nat c with
      | Some d => digits (10 * acc + Z.of_nat d)%Z s'
      | None => None
      end
  end.

Definition unsigned (s : string) : option Z :=
  match s with
  | EmptyString => None
  | _ => digits 0%Z s
  end.

Definition int (s : string) : option Z :=
  match s with
  | String "-"%char s' => Z.opp <$> unsigned s'
  | String "+"%char s' => unsigned s'
  | _ => unsigned s
  end.

Definition float (s : string) : option PrimFloat.float :=
  match unsigned s with
  | Some z =>
      if (z <? 2 ^ 53)%Z then Some (PrimFloat.of_uint63 (Uint63.of_Z z))
      else None
  | None => None
  end.

Definition builtins : Builtins := {| py_int := int; py_float := float |}.

End Sample.

(** ** Data model

    One record per table row (without its INTEGER PRIMARY KEY, which is
    the key of the table); every other column is nullable. *)

Record constellation := {
  cn_regionID : option Z;
  constellationName : option string
}.

Record solar_system := {
  ss_constellationID : option Z;
  solarSystemName : option string
}.

Record inv_type := {
  it_groupID : option Z;
  it_typeName : option string
}.

Record planet := {
  typeID : option Z;
  groupID : option Z;
  category : option string;
  typeName : option string;
  itemName : option string;
  solarSystemID : option Z;
  constellationID : option Z;
  regionID : option Z;
  orbitalID : option Z;
  radius_km : option float
}.

(** The database: five tables keyed by their primary key, and the names of
    the indices that exist. *)
#[projections(primitive)]
Record database := {
  mapRegions : gmap Z (option string);
  mapConstellations : gmap Z constellation;
  mapSolarSystems : gmap Z solar_system;
  invTypes : gmap Z inv_type;
  planets : gmap Z planet;
  indices : gset string
}.

(** A row of [csv.DictReader]: [r.get(k)] is [r !! k]. *)
Abbreviation csv_row := (gmap string string).

(** Python truthiness of the values the importers test. *)
Definition truthy_str (x : option string) : bool :=
  match x with
  | Some (String _ _) => true
  | _ => false
  end.

Definition truthy_int (x : option Z) : bool :=
  match x with
  | Some n => negb (n =? 0)%Z
  | None => false
  end.

(** [a or b] *)
Definition py_or (a b : option string) : option string :=
  if truthy_str a then a else b.

(** Record updates of [database]. *)
Definition with_mapRegions (t : gmap Z (option string)) (d : database) :=
  {| mapRegions := t; mapConstellations := mapConstellations d;
     mapSolarSystems := mapSolarSystems d; invTypes := invTypes d;
     planets := planets d; indices := indices d |}.

Definition with_mapConstellations (t : gmap Z constellation) (d : database) :=
  {| mapRegions := mapRegions d; mapConstellations := t;
     mapSolarSystems := mapSolarSystems d; invTypes := invTypes d;
     planets := planets d; indices := indices d |}.

Definition with_mapSolarSystems (t : gmap Z solar_system) (d : database) :=
  {| mapRegions := mapRegions d; mapConstellations := mapConstellations d;
     mapSolarSystems := t; invTypes := invTypes d;
     planets := planets d; indices := indices d |}.

Definition with_invTypes (t : gmap Z inv_type) (d : database) :=
  {| mapRegions := mapRegions d; mapConstellations := mapConstellations d;
     mapSolarSystems := mapSolarSystems d; invTypes := t;
     planets := planets d; indices := indices d |}.

Definition with_planets (t : gmap Z planet) (d : database) :=
  {| mapRegions := mapRegions d; mapConstellations := mapConstellations d;
     mapSolarSystems := mapSolarSystems d; invTypes := invTypes d;
     planets := t; indices := indices d |}.

Definition with_indices (i : gset string) (d : database) :=
  {| mapRegions := mapRegions d; mapConstellations := mapConstellations d;
     mapSolarSystems := mapSolarSystems d; invTypes := invTypes d;
     planets := planets d; indices := i |}.

(** What [executemany("INSERT OR REPLACE INTO t ... VALUES (...)", rows)]
    does to a table with an INTEGER PRIMARY KEY when every row is written:
    the rows are written one after the other, each replacing the row that
    has its key. *)
Definition executemany {V} (rows : list (Z * V)) (t : gmap Z V) : gmap Z V :=
  foldl (fun t kv => <[kv.1 := kv.2]> t) t rows.

Section Importers.
Context `{Builtins}.

Definition try_int (x : option string) (default : option Z) : option Z :=
  match x ≫= py_int with
  | Some n => Some n
  | None => default
  end.

Definition try_float (x : option string) (default : option float) : option float :=
  match x ≫= py_float with
  | Some v => Some v
  | None => default
  end.

(** The tuple [import_csv_invTypes] appends for a row, or [None] where it
    says [continue]. *)

Definition invTypes_row (r : csv_row) : option (Z * inv_type) :=
  let typeID := try_int (r !! "typeID") None in
  let groupID := try_int (r !! "groupID") None in
  let typeName := r !! "typeName" in
  match typeID with
  | None => None
  | Some typeID => Some (typeID, {| it_groupID := groupID; it_typeName := typeName |})
  end.

(** The same for [import_csv_mapRegions]. *)

Definition mapRegions_row (r : csv_row) : option (Z * option string) :=
  let regionID := try_int (r !! "regionID") None in
  let name := py_or (r !! "regionName") (r !! "name") in
  match regionID with
  | None => None
  | Some regionID =>
      if negb (truthy_str name) then None else Some (regionID, name)
  end.

(** The same for [import_csv_mapConstellations]. *)

Definition mapConstellations_row (r : csv_row) : option (Z * constellation) :=
  let constellationID := try_int (r !! "constellationID") None in
  let regionID := try_int (r !! "regionID") None in
  let name := py_or (r !! "constellationName") (r !! "name") in
  match constellationID, regionID with
  | Some constellationID, Some regionID =>
      Some (constellationID,
            {| cn_regionID := Some regionID; constellationName := name |})
  | _, _ => None
  end.

(** The same for [import_csv_mapSolarSystems]. *)

Definition mapSolarSystems_row (r : csv_row) : option (Z * solar_system) :=
  let solarSystemID := try_int (r !! "solarSystemID") None in
  let constellationID := try_int (r !! "constellationID") None in
  let name := py_or (r !! "solarSystemName") (r !! "name") in
  match solarSystemID, constellationID with
  | Some solarSystemID, Some constellationID =>
      Some (solarSystemID,
            {| ss_constellationID := Some constellationID; solarSystemName := name |})
  | _, _ => None
  end.

End Importers.

(** ** The connection

    [db] is what statements read and write.  [journal] is [None] in
    autocommit mode and holds the contents to roll back to while a
    transaction is open.  The three PRAGMA settings belong to the
    connection and are not covered by transactions. *)

#[projections(primitive)]
Record connection := {
  db : database;
  journal : option database;
  synchronous : Z;
  temp_store : Z;
  cache_size : Z
}.

Definition with_db (f : database -> database) (c : connection) : connection :=
  {| db := f (db c); journal := journal c; synchronous := synchronous c;
     temp_store := temp_store c; cache_size := cache_size c |}.

(** [con.commit()] *)
Definition commit (c : connection) : connection :=
  {| db := db c; journal := None; synchronous := synchronous c;
     temp_store := temp_store c; cache_size := cache_size c |}.

(** [con.rollback()]: nothing to undo outside a transaction. *)
Definition rollback (c : connection) : connection :=
  {| db := default (db c) (journal c); journal := None;
     synchronous := synchronous c; temp_store := temp_store c;
     cache_size := cache_size c |}.

(** [BEGIN], once it is known that no transaction is open. *)
Definition begin (c : connection) : connection :=
  {| db := db c; journal := Some (db c); synchronous := synchronous c;
     temp_store := temp_store c; cache_size := cache_size c |}.

Definition pragma_synchronous (v : Z) (c : connection) : connection :=
  {| db := db c; journal := journal c; synchronous := v;
     temp_store := temp_store c; cache_size := cache_size c |}.

Definition pragma_temp_store (v : Z) (c : connection) : connection :=
  {| db := db c; journal := journal c; synchronous := synchronous c;
     temp_store := v; cache_size := cache_size c |}.

Definition pragma_cache_size (v : Z) (c : connection) : connection :=
  {| db := db c; journal := journal c; synchronous := synchronous c;
     temp_store := temp_store c; cache_size := v |}.

(** [PRAGMA synchronous=OFF] and [PRAGMA temp_store=MEMORY] as numbers. *)
Definition OFF : Z := 0.
Definition MEMORY : Z := 2.

Definition drop_index (name : string) : database -> database :=
  fun d => with_indices (indices d ∖ {[name]}) d.

Definition create_index (name : string) : database -> database :=
  fun d => with_indices (indices d ∪ {[name]}) d.

Definition insert_or_replace_planet (row : Z * planet) : database -> database :=
  fun d => with_planets (<[row.1 := row.2]> (planets d)) d.

Definition insert_or_replace_invType (row : Z * inv_type) : database -> database :=
  fun d => with_invTypes (<[row.1 := row.2]> (invTypes d)) d.

Definition insert_or_replace_region (row : Z * option string)
    : database -> database :=
  fun d => with_mapRegions (<[row.1 := row.2]> (mapRegions d)) d.

Definition insert_or_replace_constellation (row : Z * constellation)
    : database -> database :=
  fun d => with_mapConstellations (<[row.1 := row.2]> (mapConstellations d)) d.

Definition insert_or_replace_system (row : Z * solar_system)
    : database -> database :=
  fun d => with_mapSolarSystems (<[row.1 := row.2]> (mapSolarSystems d)) d.

(** The transaction the [sqlite3] module opens before an INSERT, REPLACE or
    DELETE: the journal keeps what it holds, or takes the database as it is
    when no transaction is open. *)
Definition implicit_begin (c : connection) : connection :=
  {| db := db c; journal := Some (default (db c) (journal c));
     synchronous := synchronous c; temp_store := temp_store c;
     cache_size := cache_size c |}.

(** ** Exceptions and the statements that can raise them

    Inside the [try] block of the rebuild every statement sent to the
    database, the opening of the file and every read of the reader can
    raise.  The statements are numbered in execution order by [clock], and
    [fails n] tells whether statement [n] raises; a statement that raises
    leaves the connection as it was.  An exception remembers the statement
    that raised it; it is an instance of Python's [Exception], the class the
    handler of the rebuild catches.  The rollback in that handler and the
    statements of the [finally] block are taken not to raise.

    [DatabaseError] is what a statement sent to the database raises,
    [ReadError] what the opening or the reading of a local file raises,
    [HTTPError] is [requests.HTTPError], raised by [raise_for_status], and
    [TransferError] is any other exception of a download. *)

Inductive exn :=
  | DatabaseError (at_statement : nat)
  | ReadError (at_statement : nat)
  | HTTPError (at_statement : nat)
  | TransferError (at_statement : nat).

Inductive outcome (A : Type) :=
  | Return (a : A)
  | Raise (e : exn).
Arguments Return {A} a.
Arguments Raise {A} e.

#[projections(primitive)]
Record world := {
  con : connection;
  clock : nat
}.

Definition M (A : Type) : Type := world -> outcome A * world.

Definition ret {A} (a : A) : M A := fun w => (Return a, w).

Definition bind {A B} (m : M A) (k : A -> M B) : M B :=
  fun w =>
    match m w with
    | (Return a, w') => k a w'
    | (Raise e, w') => (Raise e, w')
    end.

Declare Scope py_scope.
Delimit Scope py_scope with py.
Notation "x <- m ;; k" := (bind m (fun x => k))
  (at level 100, m at next level, right associativity) : py_scope.
Notation "m ;; k" := (bind m (fun _ => k))
  (at level 100, right associativity) : py_scope.

(** [try: body except Exception as e: handler e] *)
Definition try_except {A} (body : M A) (handler : exn -> M A) : M A :=
  fun w =>
    match body w with
    | (Return a, w') => (Return a, w')
    | (Raise e, w') => handler e w'
    end.

(** [try: body finally: cleanup] *)
Definition try_finally {A} (body : M A) (cleanup : M unit) : M A :=
  fun w =>
    match body w with
    | (r, w') =>
        match cleanup w' with
        | (Return _, w'') => (r, w'')
        | (Raise e, w'') => (Raise e, w'')
        end
    end.

Definition raise {A} (e : exn) : M A := fun w => (Raise e, w).

(** A statement that cannot raise in this model. *)
Definition run (f : connection -> connection) : M unit :=
  fun w => (Return tt, {| con := f (con w); clock := clock w |}).

(** ** [build_planets_from_mapDenormalize] *)

Section Rebuild.
Context `{Builtins}.
Variable fails : nat -> bool.

(** A statement that can raise: it takes the next number. *)
Definition attempt (error : nat -> exn) (f : connection -> connection) : M unit :=
  fun w =>
    if fails (clock w)
    then (Raise (error (clock w)), {| con := con w; clock := S (clock w) |})
    else (Return tt, {| con := f (con w); clock := S (clock w) |}).

(** [cur.execute(...)] of a statement that changes the database. *)
Definition execute (f : database -> database) : M unit :=
  attempt DatabaseError (with_db f).

(** [con.execute("BEGIN")]: refused inside a transaction. *)
Definition execute_begin : M unit :=
  fun w =>
    match journal (con w) with
    | Some _ =>
        (Raise (DatabaseError (clock w)), {| con := con w; clock := S (clock w) |})
    | None => attempt DatabaseError begin w
    end.

(** [con.executemany("INSERT OR REPLACE INTO planets ...", rows)]: one
    statement per row; the rows written before a failing one stay written
    in the open transaction. *)
Fixpoint executemany_planets (rows : list (Z * planet)) : M unit :=
  match rows with
  | [] => ret tt
  | row :: rows' =>
      (execute (insert_or_replace_planet row) ;; executemany_planets rows')%py
  end.

(** The [SELECT typeID, groupID, typeName FROM invTypes WHERE groupID = 7]
    loop that fills [type_map]. *)
Definition load_type_map (d : database) : gmap Z (option string) :=
  it_typeName <$> filter (fun kv => it_groupID kv.2 = Some 7%Z) (invTypes d).

(** The body of the [for r in reader] loop up to [rows.append]: the tuple
    to insert, or [None] where the code says [continue]. *)
Definition planet_row (type_map : gmap Z (option string)) (r : csv_row)
    : option (Z * planet) :=
  let groupID := try_int (r !! "groupID") None in
  if negb (bool_decide (groupID = Some 7%Z)) then None else
  let itemID := try_int (r !! "itemID") None in
  let typeID := try_int (r !! "typeID") None in
  let solarSystemID := try_int (r !! "solarSystemID") None in
  let constellationID := try_int (r !! "constellationID") None in
  let regionID := try_int (r !! "regionID") None in
  let orbitalID :=
    match r !! "orbitalID" with
    | Some _ => try_int (r !! "orbitalID") None
    | None => try_int (r !! "orbitID") None
    end in
  let radius_m := try_float (r !! "radius") None in
  let radius_km :=
    match radius_m with
    | Some m => Some (m / 1000)%float
    | None => None
    end in
  let itemName := r !! "itemName" in
  if negb (truthy_int itemID && truthy_int typeID && truthy_int solarSystemID)
  then None else
  match itemID, typeID with
  | Some itemID', Some typeID' =>
      let typeName := mjoin (type_map !! typeID') in
      let category := categorize_type typeName in
      Some (itemID',
            {| typeID := typeID; groupID := groupID; category := Some category;
               typeName := typeName; itemName := itemName;
               solarSystemID := solarSystemID; constellationID := constellationID;
               regionID := regionID; orbitalID := orbitalID;
               radius_km := radius_km |})
  | _, _ => None
  end.

(** The [for r in reader] loop and the final [if rows:].  Each pass first
    reads from the reader, which can raise. *)
Fixpoint planets_loop (batch : nat) (type_map : gmap Z (option string))
    (reader : list csv_row) (rows : list (Z * planet)) (inserted : nat) : M nat :=
  (attempt ReadError id ;;
   match reader with
   | [] =>
       match rows with
       | [] => ret inserted
       | _ => executemany_planets rows ;; ret (inserted + length rows)%nat
       end
   | r :: reader' =>
       match planet_row type_map r with
       | None => planets_loop batch type_map reader' rows inserted
       | Some row =>
           let rows' := (rows ++ [row])%list in
           if decide (batch <= length rows')%nat
           then executemany_planets rows' ;;
                planets_loop batch type_map reader' [] (inserted + length rows')%nat
           else planets_loop batch type_map reader' rows' inserted
       end
   end)%py.

(** The [try] block. *)
Definition rebuild_body (batch : nat) (type_map : gmap Z (option string))
    (reader : list csv_row) : M nat :=
  (execute_begin ;;
   execute (drop_index "idx_planets_region") ;;
   execute (drop_index "idx_planets_constellation") ;;
   execute (drop_index "idx_planets_system") ;;
   attempt ReadError id ;;
   inserted <- planets_loop batch type_map reader [] 0%nat ;;
   execute (create_index "idx_planets_region") ;;
   execute (create_index "idx_planets_constellation") ;;
   execute (create_index "idx_planets_system") ;;
   attempt DatabaseError commit ;;
   ret inserted)%py.

(** The whole method, for any batch size. *)
Definition build_planets (batch : nat) (reader : list csv_row) : M nat :=
  fun w =>
    let type_map := load_type_map (db (con w)) in
    let orig_sync := synchronous (con w) in
    let orig_temp := temp_store (con w) in
    let orig_cache := cache_size (con w) in
    (run commit ;;
     run (pragma_synchronous OFF) ;;
     run (pragma_temp_store MEMORY) ;;
     run (pragma_cache_size (-200000)) ;;
     try_finally
       (try_except
          (rebuild_body batch type_map reader)
          (fun e => run rollback ;; raise e))
       (run commit ;;
        run (pragma_synchronous orig_sync) ;;
        run (pragma_temp_store orig_temp) ;;
        run (pragma_cache_size orig_cache)))%py w.

Definition build_planets_from_mapDenormalize (reader : list csv_row) : M nat :=
  build_planets PLANET_BATCH_SIZE reader.

End Rebuild.

(** No statement raises. *)
Definition no_failure : nat -> bool := fun _ => false.

(** ** [clear_all] and the reference importers *)

Section Reference.
Context `{Builtins}.
Variable fails : nat -> bool.

(** [execute] of a statement that changes rows, outside an explicit
    transaction. *)
Definition execute_dml (f : database -> database) : M unit :=
  attempt fails DatabaseError (fun c => with_db f (implicit_begin c)).

(** [con.executemany("INSERT OR REPLACE INTO t ...", rows)]: one statement
    per row; the rows written before a failing one stay written in the open
    transaction. *)
Fixpoint executemany_into {V} (write : Z * V -> database -> database)
    (rows : list (Z * V)) : M unit :=
  match rows with
  | [] => ret tt
  | row :: rows' => (execute_dml (write row) ;; executemany_into write rows')%py
  end.

(** The loop every reference importer runs over the reader.  Each pass
    first reads from the reader, which can raise; a row is parsed or skipped
    ([continue]), appended to the buffer [rows], and the buffer is written
    and cleared when it holds [batch] rows; what is left in it is written
    after the loop ([if rows:]). *)
Fixpoint batch_loop {V} (batch : nat) (parse : csv_row -> option (Z * V))
    (write : Z * V -> database -> database)
    (reader : list csv_row) (rows : list (Z * V)) : M unit :=
  (attempt fails ReadError id ;;
   match reader with
   | [] =>
       match rows with
       | [] => ret tt
       | _ => executemany_into write rows
       end
   | r :: reader' =>
       match parse r with
       | None => batch_loop batch parse write reader' rows
       | Some row =>
           let rows' := (rows ++ [row])%list in
           if decide (batch <= length rows')%nat
           then executemany_into write rows' ;;
                batch_loop batch parse write reader' []
           else batch_loop batch parse write reader' rows'
       end
   end)%py.

(** [with self.con: body]: the connection commits when the block ends and
    rolls back when it raises, and the exception goes on.  (When the commit
    itself raises, the connection rolls back as well, as current versions of
    Python do.) *)
Definition with_con {A} (body : M A) : M A :=
  try_except
    (a <- body ;; attempt fails DatabaseError commit ;; ret a)%py
    (fun e => run rollback ;; raise e)%py.

(** The four importers; [path.open] comes first and can raise before the
    connection is entered. *)
Definition import_csv_invTypes (reader : list csv_row) : M unit :=
  (attempt fails ReadError id ;;
   with_con (batch_loop BATCH_SIZE invTypes_row insert_or_replace_invType
               reader []))%py.

Definition import_csv_mapRegions (reader : list csv_row) : M unit :=
  (attempt fails ReadError id ;;
   with_con (batch_loop BATCH_SIZE mapRegions_row insert_or_replace_region
               reader []))%py.

Definition import_csv_mapConstellations (reader : list csv_row) : M unit :=
  (attempt fails ReadError id ;;
   with_con (batch_loop BATCH_SIZE mapConstellations_row
               insert_or_replace_constellation reader []))%py.

Definition import_csv_mapSolarSystems (reader : list csv_row) : M unit :=
  (attempt fails ReadError id ;;
   with_con (batch_loop BATCH_SIZE mapSolarSystems_row insert_or_replace_system
               reader []))%py.

(** [clear_all]: five [DELETE FROM] statements and a commit; nothing rolls
    back when one of them raises. *)
Definition clear_all : M unit :=
  (execute_dml (with_planets ∅) ;;
   execute_dml (with_invTypes ∅) ;;
   execute_dml (with_mapSolarSystems ∅) ;;
   execute_dml (with_mapConstellations ∅) ;;
   execute_dml (with_mapRegions ∅) ;;
   attempt fails DatabaseError commit)%py.

End Reference.

(** ** Queries *)

(** [name IS NOT NULL AND TRIM(name) <> '' AND LOWER(name) <> 'no name'] *)
Definition valid_name (name : option string) : bool :=
  match name with
  | None => false
  | Some s =>
      negb (bool_decide (Text.sql_trim s = "")) &&
      negb (bool_decide (Text.lower s = "no name"))
  end.

(** [ORDER BY name COLLATE NOCASE] on (id, name) rows. *)
Definition nocase_le (a b : Z * string) : Prop :=
  String.le (Text.lower a.2) (Text.lower b.2).

#[global] Instance nocase_le_dec : RelDecision nocase_le.
Proof. intros a b. unfold nocase_le. apply _. Defined.

(** The rows a SELECT with the name filter returns, before ordering. *)
Definition named {V} (name : V -> option string) (keep : V -> bool)
    (t : gmap Z V) : list (Z * string) :=
  omap (fun kv =>
          if keep kv.2 && valid_name (name kv.2)
          then pair kv.1 <$> name kv.2 else None)
       (map_to_list t).

Definition list_regions (d : database) : list (Z * string) :=
  merge_sort nocase_le (named id (fun _ => true) (mapRegions d)).

Definition constellations_in_region (d : database) (region_id : Z)
    : list (Z * string) :=
  merge_sort nocase_le
    (named constellationName
       (fun c => bool_decide (cn_regionID c = Some region_id))
       (mapConstellations d)).

Definition systems_in_constellation (d : database) (constellation_id : Z)
    : list (Z * string) :=
  merge_sort nocase_le
    (named solarSystemName
       (fun s => bool_decide (ss_constellationID s = Some constellation_id))
       (mapSolarSystems d)).

Definition total_regions (d : database) : nat :=
  length (filter (fun kv => valid_name kv.2) (map_to_list (mapRegions d))).

Definition count_planets_region (d : database) (region_id : Z) : nat :=
  length (filter (fun kv => regionID kv.2 = Some region_id)
                 (map_to_list (planets d))).

(** [planets p JOIN mapRegions r ON r.regionID = p.regionID WHERE ...] *)
Definition total_planets (d : database) : nat :=
  length
    (p ← map_to_list (planets d);
     r ← map_to_list (mapRegions d);
     if bool_decide (Some r.1 = regionID p.2) && valid_name r.2
     then [(p, r)] else []).

(** [GROUP BY category]: the groups come out of the sorter in ascending
    order of the key, NULL before every text, text by bytes. *)
Definition category_le (a b : option string) : Prop :=
  match a, b with
  | None, _ => True
  | Some _, None => False
  | Some x, Some y => String.le x y
  end.

#[global] Instance category_le_dec : RelDecision category_le.
Proof. intros [x|] [y|]; simpl; apply _. Defined.

Fixpoint group_runs (l : list (option string)) : list (option string * nat) :=
  match l with
  | [] => []
  | c :: l' =>
      match group_runs l' with
      | (c', n) :: g =>
          if decide (c = c') then (c, S n) :: g else (c, 1%nat) :: (c', n) :: g
      | [] => [(c, 1%nat)]
      end
  end.

Definition group_by_category (ps : list (Z * planet)) : list (option string * nat) :=
  group_runs (merge_sort category_le ((fun kv => category kv.2) <$> ps)).

(** The loop over the groups that fills the [counts] dict. *)
Definition tally (counts : gmap string nat) (group : option string * nat)
    : gmap string nat :=
  match group with
  | (Some cat, c) =>
      if decide (is_Some (counts !! cat)) then <[cat := c]> counts
      else <["Barren" := (default 0 (counts !! "Barren") + c)%nat]> counts
  | (None, c) =>
      <["Barren" := (default 0 (counts !! "Barren") + c)%nat]> counts
  end.

Definition zero_counts : gmap string nat :=
  list_to_map ((fun k => (k, 0%nat)) <$> PLANET_TYPES).

Definition counts_by_category_region (d : database) (region_id : Z)
    : gmap string nat :=
  foldl tally zero_counts
    (group_by_category
       (filter (fun kv => regionID kv.2 = Some region_id)
               (map_to_list (planets d)))).

(** [ORDER BY orbitalID]: NULL sorts before every integer. *)
Definition orbital_le (a b : Z * planet) : Prop :=
  match orbitalID a.2, orbitalID b.2 with
  | None, _ => True
  | Some _, None => False
  | Some x, Some y => (x <= y)%Z
  end.

#[global] Instance orbital_le_dec : RelDecision orbital_le.
Proof.
  intros a b. unfold orbital_le.
  destruct (orbitalID a.2), (orbitalID b.2); apply _.
Defined.

(** The rows of [planets_in_system] in the order they are returned, before
    the five selected columns are projected out. *)
Definition planets_in_system_rows (d : database) (system_id : Z)
    : list (Z * planet) :=
  merge_sort orbital_le
    (filter (fun kv => solarSystemID kv.2 = Some system_id)
            (map_to_list (planets d))).

Definition planets_in_system (d : database) (system_id : Z)
    : list (Z * option string * option float * option string * option string) :=
  (fun kv => (kv.1, itemName kv.2, radius_km kv.2, typeName kv.2, category kv.2))
    <$> planets_in_system_rows d system_id.

(** ** The rest of [EveDB]

    The methods below are written like the ones above.  A table that does
    not exist yet is the empty table, so of [_ensure_schema] only the three
    indices are visible. *)

(** [_ensure_schema] *)
Definition _ensure_schema (c : connection) : connection :=
  commit
    (with_db (fun d => create_index "idx_planets_system"
                         (create_index "idx_planets_constellation"
                            (create_index "idx_planets_region" d))) c).

(** [str] of an integer. *)
Definition py_str (n : Z) : string := NilZero.string_of_int (Z.to_int n).

Definition region_name (d : database) (region_id : Z) : option string :=
  match mapRegions d !! region_id with
  | Some regionName => regionName
  | None => Some (py_str region_id)
  end.

Definition constellation_name (d : database) (constellation_id : Z)
    : option string :=
  match mapConstellations d !! constellation_id with
  | Some row => constellationName row
  | None => Some (py_str constellation_id)
  end.

Definition system_name (d : database) (system_id : Z) : option string :=
  match mapSolarSystems d !! system_id with
  | Some row => solarSystemName row
  | None => Some (py_str system_id)
  end.

Definition count_planets_constellation (d : database) (constellation_id : Z)
    : nat :=
  length (filter (fun kv => constellationID kv.2 = Some constellation_id)
                 (map_to_list (planets d))).

Definition counts_by_category_system (d : database) (system_id : Z)
    : gmap string nat :=
  foldl tally zero_counts
    (group_by_category
       (filter (fun kv => solarSystemID kv.2 = Some system_id)
               (map_to_list (planets d)))).

Definition counts_by_category_constellation (d : database)
    (constellation_id : Z) : gmap string nat :=
  foldl tally zero_counts
    (group_by_category
       (filter (fun kv => constellationID kv.2 = Some constellation_id)
               (map_to_list (planets d)))).



(** ** The parts of [App] that are functions of the database *)

Definition COL_HEADERS : list string :=
  [ "Total Planets"; "Planet (Temperate)"; "Planet (Ice)"; "Planet (Gas)";
    "Planet (Oceanic)"; "Planet (Lava)"; "Planet (Barren)"; "Planet (Storm)";
    "Planet (Plasma)"; "Planet (Shattered)"; "Planet (Scorched Barren)";
    "Radius (km)" ].

(** [_iid]: the item id of a tree row. *)
Definition _iid (kind : string) (id_ : Z) : string :=
  kind +:+ ":" +:+ py_str id_.

(** [s.split(sep, 1)[1]]: what follows the first [sep], if there is one. *)
Fixpoint after_first (sep : ascii) (s : string) : option string :=
  match s with
  | EmptyString => None
  | String c s' => if Ascii.eqb c sep then Some s' else after_first sep s'
  end.

(** A cell of a tree row: a number, or the empty string. *)
Inductive cell :=
  | Number (n : nat)
  | Blank.

(** [sum(counts.values())] *)
Definition sum_values (counts : gmap string nat) : nat :=
  sum_list (map_to_list counts).*2.

(** [[sum(counts.values())] + [counts.get(t, 0) for t in PLANET_TYPES] + [""]] *)
Definition breakdown_values (counts : gmap string nat) : list cell :=
  ([Number (sum_values counts)]
   ++ ((fun t => Number (default 0%nat (counts !! t))) <$> PLANET_TYPES)
   ++ [Blank])%list.

(** [[total] + [""] * (len(COL_HEADERS) - 2) + [""]] *)
Definition total_values (total : nat) : list cell :=
  ([Number total] ++ replicate (length COL_HEADERS - 2) Blank ++ [Blank])%list.

(** The [values] of the region row in [populate_region], of a constellation
    row in [_load_constellations] and of a system row in [_load_systems]. *)
Definition region_values (show_region_types : bool) (d : database)
    (region_id : Z) : list cell :=
  if show_region_types
  then breakdown_values (counts_by_category_region d region_id)
  else total_values (count_planets_region d region_id).

Definition constellation_values (show_const_types : bool) (d : database)
    (const_id : Z) : list cell :=
  if show_const_types
  then breakdown_values (counts_by_category_constellation d const_id)
  else total_values (count_planets_constellation d const_id).

Definition system_values (d : database) (sys_id : Z) : list cell :=
  breakdown_values (counts_by_category_system d sys_id).

(** ** The refresh: the downloads and [work] *)

(** The rows of the five files of [DATA_FILES], as the server has them and
    as a download that returns leaves them in [DATA_DIR]; the compressed
    and the plain file of one name hold the same rows. *)
Record sources := {
  invTypes_csv : list csv_row;
  mapRegions_csv : list csv_row;
  mapConstellations_csv : list csv_row;
  mapSolarSystems_csv : list csv_row;
  mapDenormalize_csv : list csv_row
}.

Section App.
Context `{Builtins}.
Variable fails : nat -> bool.

(** [_parse_iid] *)
Definition _parse_iid (iid expected_prefix : string) : Z :=
  if truthy_str (Some iid) && Text.is_prefix (expected_prefix +:+ ":") iid
  then match after_first ":"%char iid ≫= py_int with
       | Some n => n
       | None => 0%Z
       end
  else 0%Z.

(** [download_file]: the request, [raise_for_status], and the writing of
    the body to the destination. *)
Definition download_file : M unit :=
  (attempt fails TransferError id ;;
   attempt fails HTTPError id ;;
   attempt fails TransferError id)%py.

(** [maybe_download_csv]: the compressed file is fetched and unpacked; when
    the server answers with an HTTP error status, the plain file is fetched
    instead.  The result is the path of the local file, here its rows. *)
Definition maybe_download_csv (file : list csv_row) : M (list csv_row) :=
  try_except
    (download_file ;; attempt fails TransferError id ;; ret file)%py
    (fun e =>
       match e with
       | HTTPError _ => (download_file ;; ret file)%py
       | _ => raise e
       end).

(** The [for fname in DATA_FILES] loop of [work], which fills
    [local_paths]. *)
Definition download_all (remote : sources) : M sources :=
  (invTypes <- maybe_download_csv (invTypes_csv remote) ;;
   mapDenormalize <- maybe_download_csv (mapDenormalize_csv remote) ;;
   mapSolarSystems <- maybe_download_csv (mapSolarSystems_csv remote) ;;
   mapConstellations <- maybe_download_csv (mapConstellations_csv remote) ;;
   mapRegions <- maybe_download_csv (mapRegions_csv remote) ;;
   ret {| invTypes_csv := invTypes; mapRegions_csv := mapRegions;
          mapConstellations_csv := mapConstellations;
          mapSolarSystems_csv := mapSolarSystems;
          mapDenormalize_csv := mapDenormalize |})%py.

(** [work] in [fetch_data]: the result is the count it reports, or the
    exception it reports. *)
Definition work (remote : sources) : M nat :=
  (local_paths <- download_all remote ;;
   clear_all fails ;;
   import_csv_invTypes fails (invTypes_csv local_paths) ;;
   import_csv_mapRegions fails (mapRegions_csv local_paths) ;;
   import_csv_mapConstellations fails (mapConstellations_csv local_paths) ;;
   import_csv_mapSolarSystems fails (mapSolarSystems_csv local_paths) ;;
   build_planets_from_mapDenormalize fails (mapDenormalize_csv local_paths))%py.

End App.

(** ** Vocabulary of the specification

    The definitions below are not part of the program: they are the
    notions the statements about it are written with. *)

(** The classifier as the specification words it: an ordered list of
    (substring, category) rules, the first match wins, [Barren] otherwise. *)
Definition rules : list (string * string) :=
  [ ("temperate", "Temperate"); ("ice", "Ice"); ("gas", "Gas");
    ("oceanic", "Oceanic"); ("lava", "Lava"); ("plasma", "Plasma");
    ("storm", "Storm"); ("shattered", "Shattered");
    ("scorched", "Scorched Barren"); ("barren", "Barren") ].

Definition classify_by_rules (t : string) : string :=
  match List.find (fun rule => Text.contains rule.1 t) rules with
  | Some rule => rule.2
  | None => "Barren"
  end.

Definition matches_none (keywords : list string) (t : string) : bool :=
  forallb (fun kw => negb (Text.contains kw t)) keywords.

(** The eight substrings tested before ["scorched"], and the nine tested
    before ["barren"]. *)
Definition before_scorched : list string := take 8 (fst <$> rules).
Definition specific : list string := take 9 (fst <$> rules).

(** The world in which the [try] block of the rebuild starts. *)
Definition entering (w : world) : world :=
  {| con := pragma_cache_size (-200000)
              (pragma_temp_store MEMORY (pragma_synchronous OFF (commit (con w))));
     clock := clock w |}.

(** What a rebuild that writes [rows] without a failure does to the
    database. *)
Definition rebuilt (rows : list (Z * planet)) (d : database) : database :=
  with_indices
    (indices d ∖ {["idx_planets_region"]} ∖ {["idx_planets_constellation"]}
       ∖ {["idx_planets_system"]} ∪ {["idx_planets_region"]}
       ∪ {["idx_planets_constellation"]} ∪ {["idx_planets_system"]})
    (with_planets (executemany rows (planets d)) d).

(** [triple P m Q]: from a connection satisfying [P], [m] ends, whether it
    returns or raises, in a connection satisfying [Q] for that outcome. *)
Definition triple {A} (P : connection -> Prop) (m : M A)
    (Q : outcome A -> connection -> Prop) : Prop :=
  forall w, P (con w) -> Q (m w).1 (con (m w).2).

(** [steady I m]: [m] keeps [I], also when it raises. *)
Definition steady {A} (I : connection -> Prop) (m : M A) : Prop :=
  triple I m (fun _ => I).

(** The connection while the transaction of the rebuild is open: the
    journal holds [d0] and the settings are [s], [t] and [z]. *)
Definition in_transaction (d0 : database) (s t z : Z) (c : connection) : Prop :=
  journal c = Some d0 /\ synchronous c = s /\ temp_store c = t /\ cache_size c = z.

(** An identifier the acceptance test of the rebuild refuses. *)
Definition missing_or_zero (x : option Z) : Prop := x = None \/ x = Some 0%Z.

Section Acceptance.
Context `{Builtins}.

(** The rows the rebuild skips. *)
Definition rejected (r : csv_row) : Prop :=
  try_int (r !! "groupID") None <> Some 7%Z \/
  missing_or_zero (try_int (r !! "itemID") None) \/
  missing_or_zero (try_int (r !! "typeID") None) \/
  missing_or_zero (try_int (r !! "solarSystemID") None).

#[global] Instance rejected_dec r : Decision (rejected r).
Proof. unfold rejected, missing_or_zero. apply _. Defined.

(** The tuple the rebuild writes for an accepted row with type [type_id]. *)
Definition converted (type_map : gmap Z (option string)) (r : csv_row)
    (type_id : Z) : planet :=
  {| typeID := Some type_id;
     groupID := Some 7%Z;
     category := Some (categorize_type (mjoin (type_map !! type_id)));
     typeName := mjoin (type_map !! type_id);
     itemName := r !! "itemName";
     solarSystemID := try_int (r !! "solarSystemID") None;
     constellationID := try_int (r !! "constellationID") None;
     regionID := try_int (r !! "regionID") None;
     orbitalID := match r !! "orbitalID" with
                  | Some _ => try_int (r !! "orbitalID") None
                  | None => try_int (r !! "orbitID") None
                  end;
     radius_km := (fun m => m / 1000)%float <$> (r !! "radius" ≫= py_float) |}.

End Acceptance.

(** A name the listing and counting queries filter out. *)
Definition invalid_name (name : option string) : Prop :=
  name = None \/
  exists s, name = Some s /\ (Text.sql_trim s = "" \/ Text.lower s = "no name").

Definition without_region (region_id : Z) (d : database) : database :=
  with_mapRegions (delete region_id (mapRegions d)) d.

Definition without_planet (item_id : Z) (d : database) : database :=
  with_planets (delete item_id (planets d)) d.

(** Rows without an orbital slot before, or after, all the others. *)
Definition nulls_first (rows : list (Z * planet)) : Prop :=
  forall i j a b, rows !! i = Some a -> rows !! j = Some b ->
    orbitalID a.2 = None -> is_Some (orbitalID b.2) -> (i < j)%nat.

Definition nulls_last (rows : list (Z * planet)) : Prop :=
  forall i j a b, rows !! i = Some a -> rows !! j = Some b ->
    orbitalID a.2 = None -> is_Some (orbitalID b.2) -> (j < i)%nat.

(** The ten values of a [counts] dict, added up. *)
Definition sum_counts (counts : gmap string nat) : nat :=
  sum_list ((fun k => default 0%nat (counts !! k)) <$> PLANET_TYPES).

(** ** Concrete catalogs for the closed examples *)

Module Scenario.
#[local] Existing Instance Sample.builtins.

Definition row (fields : list (string * string)) : csv_row := list_to_map fields.

Definition empty : database :=
  {| mapRegions := ∅; mapConstellations := ∅; mapSolarSystems := ∅;
     invTypes := ∅; planets := ∅; indices := ∅ |}.

(** A freshly opened connection on [d]. *)
Definition opened (d : database) : world :=
  {| con := {| db := d; journal := None; synchronous := 1; temp_store := 0;
               cache_size := -2000 |};
     clock := 0 |}.

Definition lava_type : csv_row :=
  row [("typeID", "2016"); ("groupID", "7"); ("typeName", "Planet (Lava)")].

(** The reference tables hold one planet type. *)
Definition typed : database :=
  db (con (import_csv_invTypes no_failure [lava_type] (opened empty)).2).

(** A lava planet of system 30000001 with the given extra fields. *)
Definition body (fields : list (string * string)) : csv_row :=
  row (("groupID", "7") :: ("typeID", "2016") :: ("solarSystemID", "30000001")
       :: ("radius", "6000000") :: fields).

Definition metropolis : csv_row :=
  row [("regionID", "10000002"); ("regionName", "Metropolis")].

Definition metropolis_prime : csv_row :=
  row [("regionID", "10000002"); ("regionName", "Metropolis Prime")].

(** A catalog that already holds one body and the three indices. *)
Definition loaded : world :=
  (build_planets_from_mapDenormalize no_failure [body [("itemID", "40000001")]]
     (opened (with_indices
                (list_to_set ["idx_planets_region"; "idx_planets_constellation";
                              "idx_planets_system"])
                typed))).2.

Definition three_bodies : list csv_row :=
  [ body [("itemID", "40000002")]; body [("itemID", "40000003")];
    body [("itemID", "40000004")] ].

(** The second INSERT of the batch written after the loop raises. *)
Definition second_insert_fails (n : nat) : bool :=
  bool_decide (n = clock loaded + 10)%nat.

(** Two bodies of one system, the second without an orbital slot. *)
Definition two_orbits : database :=
  db (con (build_planets_from_mapDenormalize no_failure
             [ body [("itemID", "40000001"); ("orbitalID", "1")];
               body [("itemID", "40000002"); ("orbitalID", "None")] ]
             (opened typed)).2).

(** A region whose name is the placeholder, and one body stored under it. *)
Definition placeholder_region : database :=
  let regions :=
    db (con (import_csv_mapRegions no_failure
               [row [("regionID", "10000002"); ("regionName", "No Name")]]
               (opened typed)).2) in
  db (con (build_planets_from_mapDenormalize no_failure
             [body [("itemID", "40000001"); ("regionID", "10000002")]]
             (opened regions)).2).

(** A fact table with one row whose category is not one of the ten. *)
Definition stored_body (cat : string) : planet :=
  {| typeID := Some 2016%Z; groupID := Some 7%Z; category := Some cat;
     typeName := None; itemName := None; solarSystemID := Some 30000001%Z;
     constellationID := Some 20000001%Z; regionID := Some 10000002%Z;
     orbitalID := None; radius_km := None |}.

Definition foreign_category : database :=
  with_planets
    {[ 40000001%Z := stored_body "Asteroid"; 40000002%Z := stored_body "Barren" ]}
    empty.

End Scenario.

(** ** Further vocabulary *)

(** [returns_as m m0]: whenever [m] returns, [m0] returns the same value
    in the same world. *)
Definition returns_as {A} (m m0 : M A) : Prop :=
  forall w a w', m w = (Return a, w') -> m0 w = (Return a, w').

(** The connection after [rows] have been written, one statement each,
    outside an explicit transaction. *)
Definition written {V} (write : Z * V -> database -> database)
    (rows : list (Z * V)) (c : connection) : connection :=
  match rows with
  | [] => c
  | _ => with_db (fun d => foldl (fun d row => write row d) d rows) (implicit_begin c)
  end.

(** A fact row as the rebuild writes them. *)
Definition well_formed_body (item_id : Z) (p : planet) : Prop :=
  item_id <> 0%Z /\
  groupID p = Some 7%Z /\
  (exists t, typeID p = Some t /\ t <> 0%Z) /\
  (exists s, solarSystemID p = Some s /\ s <> 0%Z) /\
  (exists c, category p = Some c /\ c ∈ PLANET_TYPES) /\
  category p = Some (categorize_type (typeName p)).

(** Every fact row the connection can show is well formed: the rows of the
    database, and the rows a rollback would bring back. *)
Definition well_formed_store (c : connection) : Prop :=
  map_Forall well_formed_body (planets (db c)) /\
  forall j, journal c = Some j -> map_Forall well_formed_body (planets j).

(** The three indices of [_ensure_schema] exist. *)
Definition schema_ensured (d : database) : Prop :=
  "idx_planets_region" ∈ indices d /\
  "idx_planets_constellation" ∈ indices d /\
  "idx_planets_system" ∈ indices d.

(** What the five [DELETE FROM] statements of [clear_all] leave. *)
Definition delete_all_rows (d : database) : database :=
  {| mapRegions := ∅; mapConstellations := ∅; mapSolarSystems := ∅;
     invTypes := ∅; planets := ∅; indices := indices d |}.

(** The database after [clear_all] and the four reference importers, as
    [work] runs them, when none of them raises: every reference table holds
    the accepted rows of its file, each key with its last row. *)
Definition imported `{Builtins} (local_paths : sources) (d : database) : database :=
  {| mapRegions := executemany (omap mapRegions_row (mapRegions_csv local_paths)) ∅;
     mapConstellations :=
       executemany (omap mapConstellations_row (mapConstellations_csv local_paths)) ∅;
     mapSolarSystems :=
       executemany (omap mapSolarSystems_row (mapSolarSystems_csv local_paths)) ∅;
     invTypes := executemany (omap invTypes_row (invTypes_csv local_paths)) ∅;
     planets := ∅;
     indices := indices d |}.

(** What [work] does on the database before the rebuild. *)
Definition reference_load `{Builtins} (fails : nat -> bool) (local_paths : sources)
    : M unit :=
  (clear_all fails ;;
   import_csv_invTypes fails (invTypes_csv local_paths) ;;
   import_csv_mapRegions fails (mapRegions_csv local_paths) ;;
   import_csv_mapConstellations fails (mapConstellations_csv local_paths) ;;
   import_csv_mapSolarSystems fails (mapSolarSystems_csv local_paths))%py.

(** More concrete data for the closed examples. *)
Module Download.
#[local] Existing Instance Sample.builtins.

Definition heimatar : csv_row :=
  Scenario.row [("regionID", "10000030"); ("regionName", "Heimatar")].

(** Five small files. *)
Definition files : sources :=
  {| invTypes_csv := [Scenario.lava_type];
     mapRegions_csv := [Scenario.metropolis; heimatar];
     mapConstellations_csv :=
       [Scenario.row [("constellationID", "20000001"); ("regionID", "10000002");
                      ("constellationName", "Hed")]];
     mapSolarSystems_csv :=
       [Scenario.row [("solarSystemID", "30000001");
                      ("constellationID", "20000001");
                      ("solarSystemName", "Hek")]];
     mapDenormalize_csv :=
       [Scenario.body [("itemID", "40000001"); ("regionID", "10000002")];
        Scenario.body [("itemID", "40000002"); ("regionID", "10000002")]] |}.

(** A connection on which [_ensure_schema] has run. *)
Definition ensured : world :=
  {| con := _ensure_schema (con (Scenario.opened Scenario.typed)); clock := 0 |}.

(** The read of the second source row raises. *)
Definition second_read_fails (n : nat) : bool := bool_decide (n = 6)%nat.

(** The same in a refresh of [files] on the connection of
    [Scenario.loaded]: the rebuild starts 48 statements after the refresh. *)
Definition second_read_fails_loaded (n : nat) : bool :=
  bool_decide (n = clock Scenario.loaded + 48 + 6)%nat.

(** In a refresh of [files] on a fresh connection, the INSERT of the
    [invTypes] import raises. *)
Definition type_insert_fails (n : nat) : bool := bool_decide (n = 29)%nat.

(** In an import of two rows on a fresh connection, the second INSERT
    raises. *)
Definition second_row_fails (n : nat) : bool := bool_decide (n = 5)%nat.

(** A failure that is never reached. *)
Definition fails_later (n : nat) : bool := bool_decide (n = 1000)%nat.

(** A body whose type is not in [invTypes]. *)
Definition unknown_type : csv_row :=
  Scenario.row [("groupID", "7"); ("itemID", "40000009"); ("typeID", "9999");
                ("solarSystemID", "30000001")].

End Download.

(** * Facts *)

(** ** The classifier *)

Ltac split_tests :=
  repeat match goal with
         | |- context [if Text.contains ?kw ?t then _ else _] =>
             destruct (Text.contains kw t) eqn:?
         end.

Example categorize_lava : categorize_type (Some "Planet (Lava)") = "Lava".
Proof. reflexivity. Qed.

Example categorize_absent : categorize_type None = "Barren".
Proof. reflexivity. Qed.

(** C2 (amended).  [categorize_type] lower-cases its argument (the empty
    string when it is absent) and returns the category of the first rule, in
    the order temperate, ice, gas, oceanic, lava, plasma, storm, shattered,
    scorched, barren, whose substring the label contains, and Barren when
    there is none.  A label containing "scorched" and none of the eight
    substrings tested before it yields Scorched Barren; a label containing
    "scorched" never yields Barren; a label containing none of the nine
    specific substrings yields Barren. *)
Theorem categorize_type_priority (type_name : option string) :
  let t := Text.lower (default "" type_name) in
  categorize_type type_name = classify_by_rules t /\
  (Text.contains "scorched" t = true -> matches_none before_scorched t = true ->
   categorize_type type_name = "Scorched Barren") /\
  (Text.contains "scorched" t = true -> categorize_type type_name <> "Barren") /\
  (matches_none specific t = true -> categorize_type type_name = "Barren").
Proof.
  intros t. unfold categorize_type. fold t. generalize t as u. clear t. intros t.
  repeat split.
  - unfold classify_by_rules, rules. simpl. split_tests; reflexivity.
  - intros Hs Hn. cbn in Hn. rewrite Hs.
    split_tests; try discriminate; reflexivity.
  - intros Hs. rewrite Hs. split_tests; discriminate.
  - intros Hn. cbn in Hn. split_tests; try discriminate; reflexivity.
Qed.

(** The theorem at two labels of the game's type table. *)
Lemma categorize_type_priority_witness :
  categorize_type (Some "Planet (Scorched Barren)") = "Scorched Barren" /\
  categorize_type (Some "Planet (Scorched Barren)") <> "Barren" /\
  categorize_type (Some "Moon") = "Barren".
Proof.
  split; [|split].
  - apply (categorize_type_priority (Some "Planet (Scorched Barren)")); reflexivity.
  - apply (categorize_type_priority (Some "Planet (Scorched Barren)")); reflexivity.
  - apply (categorize_type_priority (Some "Moon")); reflexivity.
Defined.

(** C2 as stated fails: a label that contains "scorched" and "barren" and
    also a substring of higher priority gets the category of the latter. *)
Lemma scorched_barren_label_classified_ice :
  ~ (forall label : string,
       Text.contains "scorched" (Text.lower label) = true ->
       Text.contains "barren" (Text.lower label) = true ->
       categorize_type (Some label) = "Scorched Barren").
Proof.
  intros Hall.
  specialize (Hall "scorched barren (ice)" eq_refl eq_refl). discriminate Hall.
Qed.

(** ** Writing batches *)

Section UpsertFacts.
Context {V : Type}.
Implicit Types (t : gmap Z V) (rows : list (Z * V)).
Implicit Types (parse : csv_row -> option (Z * V)).

Lemma executemany_app rows1 rows2 t :
  executemany (rows1 ++ rows2)%list t = executemany rows2 (executemany rows1 t).
Proof. unfold executemany. apply foldl_app. Qed.

Lemma executemany_notin rows t k :
  k ∉ rows.*1 -> executemany rows t !! k = t !! k.
Proof.
  unfold executemany. revert t.
  induction rows as [|[k' v'] rows IH]; intros t Hk; [done|].
  cbn in Hk. apply not_elem_of_cons in Hk as [Hne Hk].
  cbn. rewrite IH by done. by rewrite lookup_insert_ne.
Qed.

(** The last row written for a key is the one that stays. *)
Lemma executemany_last before k v after t :
  k ∉ after.*1 ->
  executemany (before ++ (k, v) :: after)%list t !! k = Some v.
Proof.
  intros Hk. rewrite executemany_app.
  change (executemany ((k, v) :: after) ?u)
    with (executemany after (<[k:=v]> u)).
  rewrite executemany_notin by done. apply lookup_insert_eq.
Qed.

Lemma executemany_cases rows t k :
  executemany rows t !! k = t !! k \/
  exists v, (k, v) ∈ rows /\ executemany rows t !! k = Some v.
Proof.
  induction rows as [|[k' v'] rows IH] using rev_ind; [by left|].
  rewrite executemany_app. cbn. destruct (decide (k' = k)) as [->|Hne].
  - right. exists v'. rewrite lookup_insert_eq. split; [|done].
    apply elem_of_app. right. by apply list_elem_of_singleton.
  - rewrite lookup_insert_ne by done.
    destruct IH as [IH|(v & Hin & IH)]; [by left|].
    right. exists v. split; [|done]. apply elem_of_app. by left.
Qed.

Lemma omap_filter_parsed parse (P : csv_row -> Prop) `{forall r, Decision (P r)}
    (reader : list csv_row) :
  (forall r, ~ P r -> parse r = None) ->
  omap parse (filter P reader) = omap parse reader.
Proof.
  intros Hskip. induction reader as [|r reader IH]; [done|].
  rewrite filter_cons. destruct (decide (P r)) as [Hp|Hp]; cbn.
  - by rewrite IH.
  - by rewrite (Hskip r Hp).
Qed.

End UpsertFacts.

(** ** Listings *)

Section ListingFacts.
Context {V : Type} (name : V -> option string) (keep : V -> bool).

Lemma elem_of_named (t : gmap Z V) k n :
  (k, n) ∈ named name keep t <->
  exists v, t !! k = Some v /\ keep v = true /\ name v = Some n /\
            valid_name (Some n) = true.
Proof.
  unfold named. rewrite list_elem_of_omap. split.
  - intros [[k' v] [Hin Hf]]. apply elem_of_map_to_list in Hin. cbn in Hf.
    destruct (keep v) eqn:Hk; [|done]. destruct (name v) as [s|] eqn:Hn; [|done].
    destruct (valid_name (Some s)) eqn:Hv; [|done]. cbn in Hf. simplify_eq.
    eauto.
  - intros (v & Hl & Hk & Hn & Hv). exists (k, v). split.
    + by apply elem_of_map_to_list.
    + cbn. by rewrite Hk, Hn, Hv.
Qed.



End ListingFacts.

Lemma elem_of_list_regions d k n :
  (k, n) ∈ list_regions d <->
  mapRegions d !! k = Some (Some n) /\ valid_name (Some n) = true.
Proof.
  unfold list_regions. rewrite merge_sort_Permutation, elem_of_named.
  split.
  - intros (v & Hl & _ & Hn & Hv). cbn in Hn. by subst.
  - intros [Hl Hv]. by exists (Some n).
Qed.


Lemma elem_of_constellations_in_region d region_id k n :
  (k, n) ∈ constellations_in_region d region_id ->
  exists c, mapConstellations d !! k = Some c /\ constellationName c = Some n /\
            valid_name (Some n) = true.
Proof.
  unfold constellations_in_region.
  rewrite merge_sort_Permutation, elem_of_named.
  intros (c & Hc & _ & Hn & Hv). eauto.
Qed.

Lemma elem_of_systems_in_constellation d constellation_id k n :
  (k, n) ∈ systems_in_constellation d constellation_id ->
  exists s, mapSolarSystems d !! k = Some s /\ solarSystemName s = Some n /\
            valid_name (Some n) = true.
Proof.
  unfold systems_in_constellation.
  rewrite merge_sort_Permutation, elem_of_named.
  intros (s & Hs & _ & Hn & Hv). eauto.
Qed.

Lemma falsy_name_invalid name : truthy_str name = false -> valid_name name = false.
Proof. by destruct name as [[|]|]. Qed.

Lemma valid_name_false name : valid_name name = false <-> invalid_name name.
Proof.
  unfold invalid_name. destruct name as [s|]; cbn; [|by split; [left|]].
  rewrite andb_false_iff, !negb_false_iff, !bool_decide_eq_true. split.
  - intros Hs. right. by exists s.
  - intros [?|(s' & ? & Hs)]; [done|]. by simplify_eq.
Qed.

(** ** The reference importers when nothing fails *)

Lemma run_eq {A} (a a' : A) (c c' : connection) (k k' : nat) :
  a = a' -> c = c' -> k = k' ->
  (Return a, {| con := c; clock := k |}) = (Return a', {| con := c'; clock := k' |}).
Proof. by intros -> -> ->. Qed.

Section Written.
Context {V : Type} (write : Z * V -> database -> database).
Implicit Types (rows : list (Z * V)) (c : connection).

Lemma written_app rows1 rows2 c :
  written write (rows1 ++ rows2)%list c = written write rows2 (written write rows1 c).
Proof.
  destruct rows1 as [|row1 rows1]; [done|].
  destruct rows2 as [|row2 rows2]; [by rewrite app_nil_r|].
  unfold written at 1 3. cbn [app]. unfold written.
  unfold with_db, implicit_begin. cbn [db journal default].
  by rewrite <- foldl_app.
Qed.

Lemma commit_written rows c :
  commit (written write rows c)
  = commit (with_db (fun d => foldl (fun d row => write row d) d rows) c).
Proof. by destruct rows. Qed.

Lemma executemany_into_ok rows w :
  executemany_into no_failure write rows w
  = (Return tt,
     {| con := written write rows (con w); clock := clock w + length rows |}).
Proof.
  revert w. induction rows as [|row rows IH]; intros w.
  - apply run_eq; [done|done|cbn; lia].
  - cbn [executemany_into]. unfold bind, execute_dml, attempt. cbn [no_failure].
    rewrite IH. apply run_eq; [done| |cbn; lia].
    cbn [con]. by rewrite (written_app [row] rows).
Qed.

(** Batching is invisible: the loop writes the buffered rows and then the
    rows parsed from the rest of the reader, in order. *)
Lemma batch_loop_ok batch (parse : csv_row -> option (Z * V)) reader rows w :
  batch_loop no_failure batch parse write reader rows w
  = (Return tt,
     {| con := written write (rows ++ omap parse reader)%list (con w);
        clock := clock w
                 + (S (length reader) + length rows + length (omap parse reader)) |}).
Proof.
  revert rows w.
  induction reader as [|r reader IH]; intros rows w;
    cbn [batch_loop omap list_omap]; unfold bind at 1, attempt at 1;
    cbn [no_failure].
  - rewrite app_nil_r. destruct rows as [|row rows].
    + apply run_eq; [done|done|cbn; lia].
    + rewrite executemany_into_ok. apply run_eq; [done|done|cbn; lia].
  - destruct (parse r) as [row|] eqn:Hrow.
    + cbn zeta. case_decide.
      * unfold bind. rewrite executemany_into_ok, IH.
        apply run_eq; [done| |cbn; rewrite length_app; cbn; lia].
        cbn [con app]. by rewrite <- written_app, <- app_assoc.
      * rewrite IH.
        apply run_eq; [done| |cbn; rewrite length_app; cbn; lia].
        by rewrite <- app_assoc.
    + rewrite IH. apply run_eq; [done|done|cbn; lia].
Qed.

(** An importer without a failure, in closed form. *)
Lemma import_ok (parse : csv_row -> option (Z * V)) reader w :
  (attempt no_failure ReadError id ;;
   with_con no_failure (batch_loop no_failure BATCH_SIZE parse write reader []))%py w
  = (Return tt,
     {| con := commit (with_db (fun d => foldl (fun d row => write row d) d
                                               (omap parse reader)) (con w));
        clock := clock w + (length reader + length (omap parse reader) + 3) |}).
Proof.
  unfold bind at 1, attempt at 1. cbn [no_failure].
  unfold with_con, try_except, bind at 1. rewrite batch_loop_ok.
  unfold bind, attempt, ret. cbn [no_failure con clock app].
  apply run_eq; [done|apply commit_written|cbn; lia].
Qed.

End Written.

Lemma foldl_insert_or_replace_invType rows d :
  foldl (fun d row => insert_or_replace_invType row d) d rows
  = with_invTypes (executemany rows (invTypes d)) d.
Proof. revert d. induction rows as [|row rows IH]; intros d; [done|]. cbn. by rewrite IH. Qed.

Lemma foldl_insert_or_replace_region rows d :
  foldl (fun d row => insert_or_replace_region row d) d rows
  = with_mapRegions (executemany rows (mapRegions d)) d.
Proof. revert d. induction rows as [|row rows IH]; intros d; [done|]. cbn. by rewrite IH. Qed.

Lemma foldl_insert_or_replace_constellation rows d :
  foldl (fun d row => insert_or_replace_constellation row d) d rows
  = with_mapConstellations (executemany rows (mapConstellations d)) d.
Proof. revert d. induction rows as [|row rows IH]; intros d; [done|]. cbn. by rewrite IH. Qed.

Lemma foldl_insert_or_replace_system rows d :
  foldl (fun d row => insert_or_replace_system row d) d rows
  = with_mapSolarSystems (executemany rows (mapSolarSystems d)) d.
Proof. revert d. induction rows as [|row rows IH]; intros d; [done|]. cbn. by rewrite IH. Qed.

Lemma with_db_ext (f g : database -> database) c :
  f (db c) = g (db c) -> with_db f c = with_db g c.
Proof. unfold with_db. by intros ->. Qed.

(** ** The reference importers *)

Section ReferenceImports.
Context `{Builtins}.

Lemma import_csv_invTypes_ok reader w :
  import_csv_invTypes no_failure reader w
  = (Return tt,
     {| con := commit
                 (with_db (fun d => with_invTypes
                                      (executemany (omap invTypes_row reader)
                                                   (invTypes d)) d) (con w));
        clock := clock w + (length reader + length (omap invTypes_row reader) + 3) |}).
Proof.
  unfold import_csv_invTypes. rewrite import_ok. apply run_eq; [done| |done].
  f_equal. apply with_db_ext, foldl_insert_or_replace_invType.
Qed.

Lemma import_csv_mapRegions_ok reader w :
  import_csv_mapRegions no_failure reader w
  = (Return tt,
     {| con := commit
                 (with_db (fun d => with_mapRegions
                                      (executemany (omap mapRegions_row reader)
                                                   (mapRegions d)) d) (con w));
        clock := clock w + (length reader + length (omap mapRegions_row reader) + 3) |}).
Proof.
  unfold import_csv_mapRegions. rewrite import_ok. apply run_eq; [done| |done].
  f_equal. apply with_db_ext, foldl_insert_or_replace_region.
Qed.

Lemma import_csv_mapConstellations_ok reader w :
  import_csv_mapConstellations no_failure reader w
  = (Return tt,
     {| con := commit
                 (with_db (fun d => with_mapConstellations
                                      (executemany (omap mapConstellations_row reader)
                                                   (mapConstellations d)) d) (con w));
        clock := clock w
                 + (length reader + length (omap mapConstellations_row reader) + 3) |}).
Proof.
  unfold import_csv_mapConstellations. rewrite import_ok.
  apply run_eq; [done| |done].
  f_equal. apply with_db_ext, foldl_insert_or_replace_constellation.
Qed.

Lemma import_csv_mapSolarSystems_ok reader w :
  import_csv_mapSolarSystems no_failure reader w
  = (Return tt,
     {| con := commit
                 (with_db (fun d => with_mapSolarSystems
                                      (executemany (omap mapSolarSystems_row reader)
                                                   (mapSolarSystems d)) d) (con w));
        clock := clock w
                 + (length reader + length (omap mapSolarSystems_row reader) + 3) |}).
Proof.
  unfold import_csv_mapSolarSystems. rewrite import_ok.
  apply run_eq; [done| |done].
  f_equal. apply with_db_ext, foldl_insert_or_replace_system.
Qed.


(** C10.  The region import skips every row whose name ([regionName], or
    else [name]) is missing or empty, whatever its [regionID]: importing a
    file is importing its named rows, and a stored row that the import wrote
    has a name.  The constellation and the solar-system import store a row
    with valid identifiers also when its name is missing or empty; such a
    row is only kept out of the listings, by the name filter of the query.
    All of this for imports in which no statement raises. *)
Theorem unnamed_rows_at_import (reader : list csv_row) (w : world) :
  let region_name r := py_or (r !! "regionName") (r !! "name") in
  let constellation_name r := py_or (r !! "constellationName") (r !! "name") in
  let system_name r := py_or (r !! "solarSystemName") (r !! "name") in
  let d := db (con w) in
  let regions := import_csv_mapRegions no_failure reader w in
  let constellations := import_csv_mapConstellations no_failure reader w in
  let systems := import_csv_mapSolarSystems no_failure reader w in
  (regions.1 = Return tt /\
   con regions.2
   = con (import_csv_mapRegions no_failure
            (filter (fun r => truthy_str (region_name r) = true) reader) w).2 /\
   forall k, mapRegions (db (con regions.2)) !! k = mapRegions d !! k \/
             exists r, r ∈ reader /\ truthy_str (region_name r) = true /\
                       mapRegions (db (con regions.2)) !! k
                       = Some (region_name r)) /\
  (forall before r after k g,
     reader = (before ++ r :: after)%list ->
     try_int (r !! "constellationID") None = Some k ->
     try_int (r !! "regionID") None = Some g ->
     truthy_str (constellation_name r) = false ->
     k ∉ (omap mapConstellations_row after).*1 ->
     let d' := db (con constellations.2) in
     constellations.1 = Return tt /\
     mapConstellations d' !! k
     = Some {| cn_regionID := Some g; constellationName := constellation_name r |} /\
     forall region_id n, (k, n) ∉ constellations_in_region d' region_id) /\
  (forall before r after k c,
     reader = (before ++ r :: after)%list ->
     try_int (r !! "solarSystemID") None = Some k ->
     try_int (r !! "constellationID") None = Some c ->
     truthy_str (system_name r) = false ->
     k ∉ (omap mapSolarSystems_row after).*1 ->
     let d' := db (con systems.2) in
     systems.1 = Return tt /\
     mapSolarSystems d' !! k
     = Some {| ss_constellationID := Some c; solarSystemName := system_name r |} /\
     forall constellation_id n, (k, n) ∉ systems_in_constellation d' constellation_id).
Proof.
  intros region_name constellation_name system_name d regions constellations
    systems.
  assert (forall r, truthy_str (region_name r) <> true -> mapRegions_row r = None)
    as Hskip.
  { intros r Hr. unfold mapRegions_row. fold (region_name r).
    destruct (try_int _ _); [|done]. by destruct (truthy_str (region_name r)). }
  unfold regions, constellations, systems.
  rewrite !import_csv_mapRegions_ok, import_csv_mapConstellations_ok,
    import_csv_mapSolarSystems_ok.
  split; [split; [done|split]|split].
  - cbn [snd con]. by rewrite (omap_filter_parsed mapRegions_row _ reader Hskip).
  - intros k. cbn [snd con db commit with_db mapRegions with_mapRegions]. fold d.
    destruct (executemany_cases (omap mapRegions_row reader) (mapRegions d) k)
      as [Hk|(v & Hin & Hk)]; [by left|].
    right. apply list_elem_of_omap in Hin as (r & Hr & Hp). exists r.
    unfold mapRegions_row in Hp. fold (region_name r) in Hp.
    destruct (try_int _ _); [|done].
    destruct (truthy_str (region_name r)) eqn:Ht; [|done].
    cbn in Hp. simplify_eq. by rewrite Hk.
  - intros before r after k g -> Hk Hg Hname Hafter.
    cbn [fst snd con db commit with_db mapConstellations with_mapConstellations].
    set (t := executemany _ _).
    assert (t !! k
            = Some {| cn_regionID := Some g;
                      constellationName := constellation_name r |}) as Ht.
    { unfold t. rewrite omap_app. cbn [omap list_omap].
      unfold mapConstellations_row at 2. rewrite Hk, Hg.
      by apply executemany_last. }
    split; [done|]. split; [done|]. intros region_id n Hin.
    apply elem_of_constellations_in_region in Hin as (c & Hc & Hn & Hv).
    cbn [mapConstellations with_mapConstellations] in Hc.
    rewrite Ht in Hc. simplify_eq. cbn in Hn.
    apply falsy_name_invalid in Hname. fold (constellation_name r) in Hn.
    congruence.
  - intros before r after k c -> Hk Hc Hname Hafter.
    cbn [fst snd con db commit with_db mapSolarSystems with_mapSolarSystems].
    set (t := executemany _ _).
    assert (t !! k
            = Some {| ss_constellationID := Some c;
                      solarSystemName := system_name r |}) as Ht.
    { unfold t. rewrite omap_app. cbn [omap list_omap].
      unfold mapSolarSystems_row at 2. rewrite Hk, Hc.
      by apply executemany_last. }
    split; [done|]. split; [done|]. intros constellation_id n Hin.
    apply elem_of_systems_in_constellation in Hin as (s & Hs & Hn & Hv).
    cbn [mapSolarSystems with_mapSolarSystems] in Hs.
    rewrite Ht in Hs. simplify_eq. cbn in Hn.
    apply falsy_name_invalid in Hname. fold (system_name r) in Hn. congruence.
Qed.

End ReferenceImports.


Example reimported_region_listed_once :
  let first :=
    import_csv_mapRegions (H := Sample.builtins) no_failure [Scenario.metropolis]
      (Scenario.opened Scenario.empty) in
  let second :=
    import_csv_mapRegions (H := Sample.builtins) no_failure
      [Scenario.metropolis_prime] first.2 in
  list_regions (db (con second.2)) = [(10000002%Z, "Metropolis Prime")].
Proof. vm_compute. reflexivity. Qed.

(** A constellation row without a name is stored and not listed. *)
Lemma unnamed_rows_at_import_witness :
  let r := Scenario.row [("constellationID", "20000001"); ("regionID", "10000002")] in
  let d' :=
    db (con (import_csv_mapConstellations (H := Sample.builtins) no_failure [r]
               (Scenario.opened Scenario.empty)).2) in
  mapConstellations d' !! 20000001%Z
  = Some {| cn_regionID := Some 10000002%Z; constellationName := None |} /\
  forall region_id n, (20000001%Z, n) ∉ constellations_in_region d' region_id.
Proof.
  intros r.
  destruct (unnamed_rows_at_import (H := Sample.builtins) [r]
              (Scenario.opened Scenario.empty))
    as (_ & Hstored & _).
  apply (Hstored [] r []).
  - reflexivity.
  - vm_compute. reflexivity.
  - vm_compute. reflexivity.
  - vm_compute. reflexivity.
  - vm_compute. intros Hin. inversion Hin.
Defined.

Example unnamed_region_row_not_stored :
  db (con (import_csv_mapRegions (H := Sample.builtins) no_failure
             [Scenario.row [("regionID", "10000002"); ("regionName", "")]]
             (Scenario.opened Scenario.empty)).2)
  = Scenario.empty.
Proof. vm_compute. reflexivity. Qed.

(** ** The rebuild when nothing fails *)

Section NoFailure.
Context `{Builtins}.

Lemma executemany_planets_ok rows w :
  executemany_planets no_failure rows w
  = (Return tt,
     {| con := with_db (fun d => with_planets (executemany rows (planets d)) d)
                 (con w);
        clock := clock w + length rows |}).
Proof.
  revert w. induction rows as [|row rows IH]; intros w.
  - apply run_eq; [done|done|cbn; lia].
  - cbn. unfold bind, execute, attempt. cbn. rewrite IH.
    apply run_eq; [done|done|cbn; lia].
Qed.

(** The loop returns the number of accepted rows and has written them all,
    in source order, whatever the batch size. *)
Lemma planets_loop_ok batch type_map reader rows inserted w :
  let accepted := omap (planet_row type_map) reader in
  planets_loop no_failure batch type_map reader rows inserted w
  = (Return (inserted + length rows + length accepted),
     {| con := with_db
                 (fun d => with_planets
                             (executemany (rows ++ accepted)%list (planets d)) d)
                 (con w);
        clock := clock w + (S (length reader) + length rows + length accepted) |}).
Proof.
  revert rows inserted w.
  induction reader as [|r reader IH]; intros rows inserted w;
    cbn [planets_loop omap list_omap]; unfold bind at 1, attempt at 1;
    cbn [no_failure].
  - destruct rows as [|row rows].
    + apply run_eq; [cbn; lia|done|cbn; lia].
    + unfold bind. rewrite executemany_planets_ok. unfold ret.
      rewrite app_nil_r. apply run_eq; [cbn; lia|done|cbn; lia].
  - destruct (planet_row type_map r) as [row|] eqn:Hrow.
    + cbn zeta. case_decide.
      * unfold bind. rewrite executemany_planets_ok, IH.
        apply run_eq;
          [rewrite length_app; cbn; lia| |cbn; rewrite length_app; cbn; lia].
        unfold with_db, with_planets. cbn -[executemany].
        by rewrite <- executemany_app, <- app_assoc.
      * rewrite IH.
        apply run_eq;
          [rewrite length_app; cbn; lia| |cbn; rewrite length_app; cbn; lia].
        by rewrite <- app_assoc.
    + rewrite IH. apply run_eq; [done|done|cbn; lia].
Qed.

Lemma rebuild_body_ok batch type_map reader w :
  journal (con w) = None ->
  let accepted := omap (planet_row type_map) reader in
  rebuild_body no_failure batch type_map reader w
  = (Return (length accepted),
     {| con := with_db (rebuilt accepted) (commit (con w));
        clock := clock w + (length reader + length accepted + 10) |}).
Proof.
  intros Hj accepted. unfold rebuild_body.
  unfold bind at 1, execute_begin. rewrite Hj.
  unfold bind, execute, attempt at 1 2 3 4 5. cbn [no_failure].
  rewrite planets_loop_ok. fold accepted. unfold attempt, ret. cbn [no_failure].
  apply run_eq; [done| |cbn; lia]. reflexivity.
Qed.

(** The whole method without a failure, in closed form. *)
Lemma build_planets_ok batch reader w :
  let accepted := omap (planet_row (load_type_map (db (con w)))) reader in
  build_planets no_failure batch reader w
  = (Return (length accepted),
     {| con := with_db (rebuilt accepted) (commit (con w));
        clock := clock w + (length reader + length accepted + 10) |}).
Proof.
  intros accepted. unfold build_planets, try_finally, try_except.
  unfold bind at 1 2 3 4, run. cbn [con clock].
  rewrite rebuild_body_ok by done.
  apply run_eq; [done| |done]. reflexivity.
Qed.

(** *** Which rows are accepted *)

Lemma truthy_int_false x : truthy_int x = false <-> missing_or_zero x.
Proof.
  unfold missing_or_zero. destruct x as [n|]; cbn.
  - rewrite negb_false_iff, Z.eqb_eq. split; [intros ->; by right|].
    intros [?|?]; congruence.
  - split; [by left|done].
Qed.

Lemma try_float_None x : try_float x None = x ≫= py_float.
Proof. unfold try_float. by destruct (x ≫= py_float). Qed.

Lemma planet_row_rejected type_map r :
  planet_row type_map r = None <-> rejected r.
Proof.
  unfold planet_row, rejected. rewrite <- !truthy_int_false.
  case_bool_decide as Hg; cbn; [|split; [by left|done]].
  destruct (truthy_int (try_int (r !! "itemID") None)) eqn:Hi; cbn;
    [|split; [tauto|done]].
  destruct (truthy_int (try_int (r !! "typeID") None)) eqn:Ht; cbn;
    [|split; [tauto|done]].
  destruct (truthy_int (try_int (r !! "solarSystemID") None)) eqn:Hs; cbn;
    [|split; [tauto|done]].
  destruct (try_int (r !! "itemID") None); [|done].
  destruct (try_int (r !! "typeID") None); [|done].
  split; [done|]. intros [?|[?|[?|?]]]; done.
Qed.

Lemma planet_row_accepted type_map r :
  ~ rejected r ->
  exists item_id type_id,
    try_int (r !! "itemID") None = Some item_id /\
    try_int (r !! "typeID") None = Some type_id /\
    planet_row type_map r = Some (item_id, converted type_map r type_id).
Proof.
  intros Hr. destruct (planet_row type_map r) as [[k p]|] eqn:Hrow.
  2: { by apply planet_row_rejected in Hrow. }
  unfold planet_row in Hrow. case_bool_decide as Hg; [|done]. cbn in Hrow.
  destruct (_ && _); [|done]. cbn in Hrow.
  destruct (try_int (r !! "itemID") None) as [item_id|] eqn:Hi; [|done].
  destruct (try_int (r !! "typeID") None) as [type_id|] eqn:Ht; [|done].
  exists item_id, type_id. repeat split. simplify_eq. unfold converted.
  by rewrite Hg, try_float_None.
Qed.

Lemma length_omap_filter {A B} (f : A -> option B) (P : A -> Prop)
    `{forall x, Decision (P x)} (l : list A) :
  (forall x, f x = None <-> ~ P x) -> length (omap f l) = length (filter P l).
Proof.
  intros Hf. induction l as [|x l IH]; [done|].
  rewrite filter_cons. cbn. destruct (decide (P x)) as [Hx|Hx].
  - destruct (f x) eqn:Hfx; [cbn; by rewrite IH|]. by apply Hf in Hfx.
  - apply Hf in Hx. by rewrite Hx.
Qed.

End NoFailure.

Section AcceptanceFacts.
Context `{Builtins}.

(** C3 (amended).  The rebuild rejects a source row if and only if its group
    is not 7 or its itemID, typeID or solarSystemID is missing, not an
    integer, or zero.  A run without failure returns the number of rows that
    are not rejected and has written exactly their tuples, in source order,
    over the fact table it started from: a key holds the classified and
    converted tuple of the last accepted row that carries it, and a key that
    no accepted row carries keeps what it had. *)
Theorem rebuild_rejects_and_stores (reader : list csv_row) (w : world) :
  let type_map := load_type_map (db (con w)) in
  let accepted := omap (planet_row type_map) reader in
  let result := build_planets_from_mapDenormalize no_failure reader w in
  (forall r, planet_row type_map r = None <-> rejected r) /\
  (forall r, ~ rejected r ->
     exists item_id type_id,
       try_int (r !! "itemID") None = Some item_id /\
       try_int (r !! "typeID") None = Some type_id /\
       planet_row type_map r = Some (item_id, converted type_map r type_id)) /\
  result.1 = Return (length (filter (fun r => ~ rejected r) reader)) /\
  planets (db (con result.2)) = executemany accepted (planets (db (con w))) /\
  (forall before r after k p,
     reader = (before ++ r :: after)%list ->
     planet_row type_map r = Some (k, p) ->
     k ∉ (omap (planet_row type_map) after).*1 ->
     planets (db (con result.2)) !! k = Some p) /\
  (forall k, k ∉ accepted.*1 ->
     planets (db (con result.2)) !! k = planets (db (con w)) !! k).
Proof.
  intros type_map accepted result.
  assert (result = (Return (length accepted),
                    {| con := with_db (rebuilt accepted) (commit (con w));
                       clock := clock w + (length reader + length accepted + 10) |}))
    as -> by apply build_planets_ok.
  split; [apply planet_row_rejected|]. split; [apply planet_row_accepted|].
  cbn -[executemany]. split; [|split; [done|split]].
  - f_equal. apply length_omap_filter. intros r.
    rewrite planet_row_rejected. split; [tauto|]. apply dec_stable.
  - intros before r after k p -> Hr Hafter. unfold accepted.
    rewrite omap_app. cbn -[executemany]. rewrite Hr.
    by apply executemany_last.
  - intros k Hk. by apply executemany_notin.
Qed.

(** C9.  A row of group 7 one of whose itemID, typeID and solarSystemID
    parses to 0 is rejected like a row where it is missing: the rebuild
    returns the same count and leaves the same database as on the source
    without that row. *)
Theorem zero_identifier_rejected (before after : list csv_row) (r : csv_row)
    (w : world) :
  try_int (r !! "groupID") None = Some 7%Z ->
  try_int (r !! "itemID") None = Some 0%Z \/
  try_int (r !! "typeID") None = Some 0%Z \/
  try_int (r !! "solarSystemID") None = Some 0%Z ->
  let with_r :=
    build_planets_from_mapDenormalize no_failure (before ++ r :: after)%list w in
  let without_r :=
    build_planets_from_mapDenormalize no_failure (before ++ after)%list w in
  planet_row (load_type_map (db (con w))) r = None /\
  with_r.1 = without_r.1 /\
  db (con with_r.2) = db (con without_r.2).
Proof.
  intros Hg Hzero with_r without_r.
  assert (planet_row (load_type_map (db (con w))) r = None) as Hrow.
  { apply planet_row_rejected. unfold rejected, missing_or_zero. tauto. }
  split; [done|]. unfold with_r, without_r, build_planets_from_mapDenormalize.
  rewrite !build_planets_ok, !omap_app. cbn -[executemany]. by rewrite Hrow.
Qed.

(** C8.  After a rebuild the tuple stored for an accepted row (the last one
    with its itemID) has as [radius_km] the source radius divided by 1000.0
    when the [radius] field is there and [float] parses it, and NULL when the
    field is absent or does not parse. *)
Theorem radius_km_stored (before after : list csv_row) (r : csv_row) (k : Z)
    (p : planet) (w : world) :
  let type_map := load_type_map (db (con w)) in
  let result :=
    build_planets_from_mapDenormalize no_failure (before ++ r :: after)%list w in
  planet_row type_map r = Some (k, p) ->
  k ∉ (omap (planet_row type_map) after).*1 ->
  exists p', planets (db (con result.2)) !! k = Some p' /\
             radius_km p' = match r !! "radius" ≫= py_float with
                            | Some radius_m => Some (radius_m / 1000)%float
                            | None => None
                            end.
Proof.
  intros type_map result Hr Hafter. exists p. split.
  - unfold result, build_planets_from_mapDenormalize.
    rewrite build_planets_ok, omap_app. cbn -[executemany].
    fold type_map. rewrite Hr. by apply executemany_last.
  - destruct (decide (rejected r)) as [Hrej|Hacc].
    { apply (planet_row_rejected type_map) in Hrej. congruence. }
    destruct (planet_row_accepted type_map r Hacc) as (i & t & _ & _ & Hrow).
    rewrite Hrow in Hr. simplify_eq. cbn. by destruct (_ ≫= _).
Qed.

End AcceptanceFacts.

(** The lava planet of the specification's scenario, followed by a row
    without itemID: one row is counted and stored. *)
Lemma rebuild_rejects_and_stores_witness :
  let reader := [Scenario.body [("itemID", "40000001")]; Scenario.body []] in
  let result :=
    build_planets_from_mapDenormalize (H := Sample.builtins) no_failure reader
      (Scenario.opened Scenario.typed) in
  result.1 = Return 1%nat /\
  planets (db (con result.2)) !! 40000001%Z
  = Some {| typeID := Some 2016%Z; groupID := Some 7%Z; category := Some "Lava";
            typeName := Some "Planet (Lava)"; itemName := None;
            solarSystemID := Some 30000001%Z; constellationID := None;
            regionID := None; orbitalID := None;
            radius_km := Some 6000%float |}.
Proof.
  intros reader.
  destruct (rebuild_rejects_and_stores (H := Sample.builtins) reader
              (Scenario.opened Scenario.typed))
    as (_ & _ & Hcount & _ & Hlast & _).
  split; [exact Hcount|].
  apply (Hlast [] (Scenario.body [("itemID", "40000001")]) [Scenario.body []]).
  - reflexivity.
  - vm_compute. reflexivity.
  - vm_compute. intros Hin. inversion Hin.
Defined.

(** C3 as stated fails: a row of group 7 whose three identifiers are all
    there is rejected when its itemID is 0. *)
Lemma present_zero_itemID_rejected :
  ~ (forall r : csv_row,
       planet_row (H := Sample.builtins) ∅ r = None <->
       try_int (H := Sample.builtins) (r !! "groupID") None <> Some 7%Z \/
       try_int (H := Sample.builtins) (r !! "itemID") None = None \/
       try_int (H := Sample.builtins) (r !! "typeID") None = None \/
       try_int (H := Sample.builtins) (r !! "solarSystemID") None = None).
Proof.
  intros Hiff.
  destruct (Hiff (Scenario.body [("itemID", "0")])) as [Hrejected _].
  destruct Hrejected as [Hg|[Hi|[Ht|Hs]]].
  - vm_compute. reflexivity.
  - apply Hg. vm_compute. reflexivity.
  - vm_compute in Hi. discriminate Hi.
  - vm_compute in Ht. discriminate Ht.
  - vm_compute in Hs. discriminate Hs.
Qed.

(** A row whose itemID is 0 between two good rows changes nothing. *)
Lemma zero_identifier_rejected_witness :
  let before := [Scenario.body [("itemID", "40000001")]] in
  let after := [Scenario.body [("itemID", "40000002")]] in
  let r := Scenario.body [("itemID", "0")] in
  let w := Scenario.opened Scenario.typed in
  planet_row (H := Sample.builtins) (load_type_map (db (con w))) r = None /\
  (build_planets_from_mapDenormalize (H := Sample.builtins) no_failure
     (before ++ r :: after)%list w).1
  = (build_planets_from_mapDenormalize (H := Sample.builtins) no_failure
       (before ++ after)%list w).1 /\
  db (con (build_planets_from_mapDenormalize (H := Sample.builtins) no_failure
             (before ++ r :: after)%list w).2)
  = db (con (build_planets_from_mapDenormalize (H := Sample.builtins) no_failure
               (before ++ after)%list w).2).
Proof.
  intros before after r w.
  apply (zero_identifier_rejected (H := Sample.builtins) before after r w).
  - vm_compute. reflexivity.
  - left. vm_compute. reflexivity.
Defined.

Example absent_or_unparsed_radius_stored_null :
  let stored fields :=
    radius_km <$>
      (snd <$> planet_row (H := Sample.builtins) (load_type_map Scenario.typed)
                 (Scenario.row (("groupID", "7") :: ("itemID", "40000001")
                                :: ("typeID", "2016")
                                :: ("solarSystemID", "30000001") :: fields))) in
  stored [] = Some None /\ stored [("radius", "None")] = Some None /\
  stored [("radius", "6000000")] = Some (Some 6000%float).
Proof. by vm_compute. Qed.

(** A radius of 6000000 m is stored as 6000.0 km. *)
Lemma radius_km_stored_witness :
  let r := Scenario.body [("itemID", "40000001")] in
  let result :=
    build_planets_from_mapDenormalize (H := Sample.builtins) no_failure [r]
      (Scenario.opened Scenario.typed) in
  exists p', planets (db (con result.2)) !! 40000001%Z = Some p' /\
             radius_km p' = Some 6000%float.
Proof.
  intros r.
  eapply (radius_km_stored (H := Sample.builtins) [] [] r 40000001%Z _
            (Scenario.opened Scenario.typed)).
  - vm_compute. reflexivity.
  - vm_compute. intros Hin. inversion Hin.
Defined.

(** ** The rebuild when a statement raises *)

Lemma triple_bind {A B} P (R : A -> connection -> Prop) Q (m : M A) (k : A -> M B) :
  triple P m (fun r c => match r with
                         | Return a => R a c
                         | Raise e => Q (Raise e) c
                         end) ->
  (forall a, triple (R a) (k a) Q) ->
  triple P (bind m k) Q.
Proof.
  intros Hm Hk w Hw. specialize (Hm w Hw). unfold bind.
  destruct (m w) as [[a|e] w1]; cbn in *; [by apply Hk|done].
Qed.

Lemma steady_ret {A} I (a : A) : steady I (ret a).
Proof. by intros w Hw. Qed.

Lemma steady_bind {A B} I (m : M A) (k : A -> M B) :
  steady I m -> (forall a, steady I (k a)) -> steady I (bind m k).
Proof.
  intros Hm Hk. apply (triple_bind I (fun _ => I)); [|done].
  intros w Hw. specialize (Hm w Hw). by destruct (m w) as [[a|e] w1].
Qed.

Section Failures.
Context `{Builtins}.
Variable fails : nat -> bool.

Lemma triple_attempt P Q error f :
  (forall c, P c -> Q (Return tt) (f c)) ->
  (forall c n, P c -> Q (Raise (error n)) c) ->
  triple P (attempt fails error f) Q.
Proof.
  intros Hok Herr w Hw. unfold attempt.
  destruct (fails (clock w)); cbn; auto.
Qed.

Lemma steady_attempt (I : connection -> Prop) error f :
  (forall c, I c -> I (f c)) -> steady I (attempt fails error f).
Proof. intros Hf. by apply triple_attempt. Qed.

Lemma steady_execute d0 s t z f :
  steady (in_transaction d0 s t z) (execute fails f).
Proof. by apply steady_attempt. Qed.

Lemma steady_read d0 s t z :
  steady (in_transaction d0 s t z) (attempt fails ReadError id).
Proof. by apply steady_attempt. Qed.

Lemma steady_executemany_planets d0 s t z rows :
  steady (in_transaction d0 s t z) (executemany_planets fails rows).
Proof.
  induction rows as [|row rows IH]; cbn; [apply steady_ret|].
  apply steady_bind; [apply steady_execute|done].
Qed.

Lemma steady_planets_loop d0 s t z batch type_map reader rows inserted :
  steady (in_transaction d0 s t z)
         (planets_loop fails batch type_map reader rows inserted).
Proof.
  revert rows inserted.
  induction reader as [|r reader IH]; intros rows inserted; cbn;
    (apply steady_bind; [apply steady_read|intros _]).
  - destruct rows; [apply steady_ret|].
    apply steady_bind;
      [apply steady_executemany_planets|intros _; apply steady_ret].
  - destruct (planet_row type_map r); [|apply IH].
    case_decide; [|apply IH].
    apply steady_bind; [apply steady_executemany_planets|intros _; apply IH].
Qed.

(** What the [try] block guarantees: the settings are not touched, and when
    it raises, a rollback gives back the database it started from. *)
Lemma rebuild_body_triple d0 s t z batch type_map reader :
  triple (fun c => db c = d0 /\ journal c = None /\
                   synchronous c = s /\ temp_store c = t /\ cache_size c = z)
         (rebuild_body fails batch type_map reader)
         (fun r c =>
            synchronous c = s /\ temp_store c = t /\ cache_size c = z /\
            match r with
            | Raise _ => db (rollback c) = d0
            | Return _ => journal c = None
            end).
Proof.
  set (I := in_transaction d0 s t z).
  assert (forall A (e : exn) c, I c ->
            synchronous c = s /\ temp_store c = t /\ cache_size c = z /\
            match @Raise A e with
            | Raise _ => db (rollback c) = d0
            | Return _ => journal c = None
            end) as Hraise.
  { intros A e c (Hj & ? & ? & ?). repeat split; try done. cbn. by rewrite Hj. }
  assert (forall A (m : M A), steady I m ->
            triple I m (fun r c => match r with
                                   | Return _ => I c
                                   | Raise e =>
                                       synchronous c = s /\ temp_store c = t /\
                                       cache_size c = z /\ db (rollback c) = d0
                                   end)) as Hstep.
  { intros A m Hm w Hw. specialize (Hm w Hw). cbn in Hm.
    destruct (m w).1; [done|]. by apply (Hraise A e). }
  unfold rebuild_body.
  eapply (triple_bind _ (fun _ => I)).
  { intros w (Hd & Hj & Hs & Ht & Hz). unfold execute_begin, attempt. rewrite Hj.
    destruct (fails (clock w)); cbn.
    - rewrite Hj. by cbn.
    - unfold I, in_transaction. cbn. by rewrite Hd. }
  intros _. do 3 (eapply (triple_bind _ (fun _ => I));
                  [apply Hstep, steady_execute|intros _]).
  eapply (triple_bind _ (fun _ => I)); [apply Hstep, steady_read|intros _].
  eapply (triple_bind _ (fun _ => I));
    [apply Hstep, steady_planets_loop|intros inserted].
  do 3 (eapply (triple_bind _ (fun _ => I));
        [apply Hstep, steady_execute|intros _]).
  eapply (triple_bind _ (fun _ c => synchronous c = s /\ temp_store c = t /\
                                    cache_size c = z /\ journal c = None)).
  - apply triple_attempt.
    + intros c (Hj & ? & ? & ?). by cbn.
    + intros c n Hc. by apply (Hraise unit (DatabaseError n)).
  - intros _ w Hw. done.
Qed.

Lemma build_planets_atomic batch reader w :
  let body :=
    rebuild_body fails batch (load_type_map (db (con w))) reader (entering w) in
  let result := build_planets fails batch reader w in
  result.1 = body.1 /\
  synchronous (con result.2) = synchronous (con w) /\
  temp_store (con result.2) = temp_store (con w) /\
  cache_size (con result.2) = cache_size (con w) /\
  journal (con result.2) = None /\
  (forall e, result.1 = Raise e -> db (con result.2) = db (con w)).
Proof.
  intros body result.
  pose proof (rebuild_body_triple (db (con w)) OFF MEMORY (-200000)
                batch (load_type_map (db (con w))) reader (entering w)) as Hbody.
  cbn in Hbody.
  specialize (Hbody (conj eq_refl (conj eq_refl (conj eq_refl
                       (conj eq_refl eq_refl))))).
  fold body in Hbody.
  assert (result = match body with
                   | (Return n, w2) =>
                       (Return n,
                        {| con := pragma_cache_size (cache_size (con w))
                                    (pragma_temp_store (temp_store (con w))
                                       (pragma_synchronous (synchronous (con w))
                                          (commit (con w2))));
                           clock := clock w2 |})
                   | (Raise e, w2) =>
                       (Raise e,
                        {| con := pragma_cache_size (cache_size (con w))
                                    (pragma_temp_store (temp_store (con w))
                                       (pragma_synchronous (synchronous (con w))
                                          (commit (rollback (con w2)))));
                           clock := clock w2 |})
                   end) as ->.
  { unfold result, build_planets, try_finally, try_except.
    unfold bind at 1 2 3 4, run. cbn [con clock]. fold (entering w). fold body.
    by destruct body as [[n|e] w2]. }
  destruct body as [[n|e] w2]; cbn in *; destruct Hbody as (_ & _ & _ & Hbody);
    repeat split; done.
Qed.

(** C1.  The rebuild is atomic.  Whatever statement of the [try] block
    raises (BEGIN, an index drop, the opening of the file, a read of the
    reader, one INSERT of a batch, an index creation, the commit), the method
    raises that same exception, and the database, the fact table in
    particular, is then exactly the one it had when the rebuild started; on
    every exit the three settings have their original values and no
    transaction is left open. *)
Theorem rebuild_atomic (reader : list csv_row) (w : world) :
  let body :=
    rebuild_body fails PLANET_BATCH_SIZE (load_type_map (db (con w))) reader
      (entering w) in
  let result := build_planets_from_mapDenormalize fails reader w in
  result.1 = body.1 /\
  synchronous (con result.2) = synchronous (con w) /\
  temp_store (con result.2) = temp_store (con w) /\
  cache_size (con result.2) = cache_size (con w) /\
  journal (con result.2) = None /\
  (forall e, result.1 = Raise e ->
     db (con result.2) = db (con w) /\
     planets (db (con result.2)) = planets (db (con w))).
Proof.
  intros body result.
  destruct (build_planets_atomic PLANET_BATCH_SIZE reader w)
    as (Hr & Hs & Ht & Hz & Hj & Hdb).
  do 5 (split; [done|]). intros e He.
  split; [|f_equal]; exact (Hdb e He).
Qed.

End Failures.

(** A write failure partway through a batch: the second of three INSERTs
    raises, after the first one has been written. *)
Lemma rebuild_atomic_witness :
  let result :=
    build_planets_from_mapDenormalize (H := Sample.builtins)
      Scenario.second_insert_fails Scenario.three_bodies Scenario.loaded in
  result.1 = Raise (DatabaseError 22) /\
  db (con result.2) = db (con Scenario.loaded) /\
  planets (db (con result.2)) = planets (db (con Scenario.loaded)).
Proof.
  split; [by vm_compute|].
  apply (rebuild_atomic (H := Sample.builtins) Scenario.second_insert_fails
           Scenario.three_bodies Scenario.loaded)
    with (e := DatabaseError 22).
  by vm_compute.
Defined.

Example partial_batch_before_rollback :
  let body :=
    rebuild_body (H := Sample.builtins) Scenario.second_insert_fails
      PLANET_BATCH_SIZE (load_type_map (db (con Scenario.loaded)))
      Scenario.three_bodies (entering Scenario.loaded) in
  (map_to_list (planets (db (con body.2)))).*1 = [40000001%Z; 40000002%Z] /\
  (map_to_list (planets (db (con Scenario.loaded)))).*1 = [40000001%Z].
Proof. by vm_compute. Qed.

(** ** Counting and ordering queries *)

Lemma bind_nil_forall {A B} (f : A -> list B) (l : list A) :
  (forall x, x ∈ l -> f x = []) -> l ≫= f = [].
Proof.
  induction l as [|x l IH]; intros Hf; [done|]. cbn.
  rewrite (Hf x) by apply list_elem_of_here. apply IH.
  intros y Hy. apply Hf. by apply list_elem_of_further.
Qed.

(** C5.  A region whose name is NULL, blank after trimming, or "no name" in
    any case is not listed by [list_regions] and does not count in
    [total_regions]; a fact row stored under its regionID counts in
    [count_planets_region] for that id and does not count in
    [total_planets]. *)
Theorem placeholder_region_counts (d : database) (region_id : Z)
    (name : option string) :
  mapRegions d !! region_id = Some name ->
  invalid_name name ->
  (forall n, (region_id, n) ∉ list_regions d) /\
  total_regions d = total_regions (without_region region_id d) /\
  (forall k p, planets d !! k = Some p -> regionID p = Some region_id ->
     count_planets_region d region_id
     = S (count_planets_region (without_planet k d) region_id) /\
     total_planets d = total_planets (without_planet k d)).
Proof.
  intros Hname Hinvalid. apply valid_name_false in Hinvalid.
  split; [|split].
  - intros n Hin. apply elem_of_list_regions in Hin as [Hn Hv]. congruence.
  - unfold total_regions, without_region. cbn.
    rewrite <- (map_to_list_delete _ _ _ Hname), filter_cons_False; [done|].
    cbn. rewrite Hinvalid. exact id.
  - intros k p Hp Hregion. split.
    + unfold count_planets_region, without_planet. cbn.
      by rewrite <- (map_to_list_delete _ _ _ Hp), filter_cons_True by done.
    + unfold total_planets, without_planet. cbn.
      rewrite <- (map_to_list_delete (planets d) _ _ Hp). cbn.
      rewrite length_app, bind_nil_forall; [done|].
      intros [rid rname] Hr%elem_of_map_to_list. cbn. rewrite Hregion.
      case_bool_decide as Heq; [|done]. simplify_eq. cbn. by rewrite Hinvalid.
Qed.

(** A body in a region named "No Name". *)
Lemma placeholder_region_counts_witness :
  let d := Scenario.placeholder_region in
  (forall n, (10000002%Z, n) ∉ list_regions d) /\
  total_regions d = total_regions (without_region 10000002 d) /\
  count_planets_region d 10000002
  = S (count_planets_region (without_planet 40000001 d) 10000002) /\
  total_planets d = total_planets (without_planet 40000001 d).
Proof.
  intros d.
  destruct (placeholder_region_counts d 10000002%Z (Some "No Name"))
    as (Hlist & Hregions & Hbodies).
  - vm_compute. reflexivity.
  - right. exists "No Name". split; [reflexivity|]. right. reflexivity.
  - split; [exact Hlist|]. split; [exact Hregions|].
    eapply Hbodies; vm_compute; reflexivity.
Defined.

Example placeholder_region_totals :
  list_regions Scenario.placeholder_region = [] /\
  total_regions Scenario.placeholder_region = 0%nat /\
  count_planets_region Scenario.placeholder_region 10000002 = 1%nat /\
  total_planets Scenario.placeholder_region = 0%nat.
Proof. by vm_compute. Qed.

#[global] Instance orbital_le_total : Total orbital_le.
Proof.
  intros a b. unfold orbital_le.
  destruct (orbitalID a.2), (orbitalID b.2); try tauto. lia.
Qed.

#[global] Instance orbital_le_trans : Transitive orbital_le.
Proof.
  intros a b c. unfold orbital_le.
  destruct (orbitalID a.2), (orbitalID b.2), (orbitalID c.2); try tauto. lia.
Qed.

Lemma StronglySorted_lookup_lt {A} (R : relation A) (l : list A) i j a b :
  StronglySorted R l -> l !! i = Some a -> l !! j = Some b -> (i < j)%nat -> R a b.
Proof.
  intros Hl. revert i j. induction Hl as [|x l Hl IH Hx]; intros i j Hi Hj Hij.
  - by rewrite lookup_nil in Hi.
  - destruct j as [|j]; [lia|]. cbn in Hj. destruct i as [|i]; cbn in Hi.
    + simplify_eq. eapply Forall_forall; [exact Hx|].
      by eapply list_elem_of_lookup_2.
    + apply (IH i j); [done|done|lia].
Qed.

(** C6 (amended).  [planets_in_system] returns the five selected columns of
    exactly the fact rows of the system, each once, in ascending order of
    the orbital slot, where the rows whose orbital slot is NULL come first. *)
Theorem planets_in_system_order (d : database) (system_id : Z) :
  let rows := planets_in_system_rows d system_id in
  planets_in_system d system_id
  = (fun kv => (kv.1, itemName kv.2, radius_km kv.2, typeName kv.2, category kv.2))
      <$> rows /\
  (forall k p, (k, p) ∈ rows <->
               planets d !! k = Some p /\ solarSystemID p = Some system_id) /\
  NoDup rows.*1 /\
  StronglySorted orbital_le rows /\
  nulls_first rows.
Proof.
  intros rows.
  assert (StronglySorted orbital_le rows) as Hsorted
    by (apply StronglySorted_merge_sort; apply _).
  split; [done|]. split; [|split; [|split; [done|]]].
  - intros k p. unfold rows, planets_in_system_rows.
    rewrite merge_sort_Permutation, list_elem_of_filter, elem_of_map_to_list.
    cbn. tauto.
  - unfold rows, planets_in_system_rows. rewrite merge_sort_Permutation.
    eapply sublist_NoDup; [apply (NoDup_fst_map_to_list (planets d))|].
    apply fmap_sublist, sublist_filter.
  - intros i j a b Ha Hb Hna [o Hnb].
    destruct (Nat.lt_trichotomy i j) as [Hlt|[->|Hgt]]; [done| |].
    + rewrite Ha in Hb. by simplify_eq.
    + pose proof (StronglySorted_lookup_lt _ _ _ _ _ _ Hsorted Hb Ha Hgt) as Hle.
      unfold orbital_le in Hle. by rewrite Hna, Hnb in Hle.
Qed.

Example two_orbits_listing :
  (planets_in_system Scenario.two_orbits 30000001).*1.*1.*1.*1
  = [40000002%Z; 40000001%Z].
Proof. by vm_compute. Qed.

(** In a system with a body in slot 1 and a body without slot, the rows
    come back sorted with the body without slot first. *)
Lemma planets_in_system_order_witness :
  StronglySorted orbital_le (planets_in_system_rows Scenario.two_orbits 30000001) /\
  (planets_in_system_rows Scenario.two_orbits 30000001).*1
  = [40000002%Z; 40000001%Z].
Proof.
  split; [|by vm_compute].
  apply (planets_in_system_order Scenario.two_orbits 30000001%Z).
Defined.

(** C6 as stated fails: the body without orbital slot is returned before the
    body in slot 1. *)
Lemma planets_in_system_nulls_not_last :
  ~ (forall d system_id, nulls_last (planets_in_system_rows d system_id)).
Proof.
  intros Hlast.
  specialize (Hlast Scenario.two_orbits 30000001%Z 0%nat 1%nat).
  assert (exists a b,
            planets_in_system_rows Scenario.two_orbits 30000001 !! 0%nat = Some a /\
            planets_in_system_rows Scenario.two_orbits 30000001 !! 1%nat = Some b /\
            orbitalID a.2 = None /\ orbitalID b.2 = Some 1%Z)
    as (a & b & Ha & Hb & Hna & Hnb).
  { vm_compute. eexists _, _. repeat split. }
  specialize (Hlast a b Ha Hb Hna (ex_intro _ _ Hnb)). lia.
Qed.

(** *** Counting by category *)

#[global] Instance category_le_total : Total category_le.
Proof.
  intros [x|] [y|]; cbn; try tauto. apply (total String.le).
Qed.

#[global] Instance category_le_trans : Transitive category_le.
Proof.
  intros [x|] [y|] [z|]; cbn; try tauto. apply (transitivity (R := String.le)).
Qed.

#[global] Instance category_le_antisymm : AntiSymm (=) category_le.
Proof.
  intros [x|] [y|]; cbn; try tauto. intros Hxy Hyx. f_equal.
  by apply (anti_symm String.le).
Qed.

(** *** The groups of [GROUP BY category] *)

Lemma group_runs_total (l : list (option string)) :
  sum_list (group_runs l).*2 = length l.
Proof.
  induction l as [|c l IH]; [done|]. cbn.
  destruct (group_runs l) as [|[c' n] g]; [by destruct l|].
  case_decide; cbn in *; lia.
Qed.

Lemma group_runs_keys (l : list (option string)) c :
  c ∈ (group_runs l).*1 -> c ∈ l.
Proof.
  induction l as [|c0 l IH]; [done|]. cbn.
  destruct (group_runs l) as [|[c' n] g]; cbn in *.
  - intros ->%list_elem_of_singleton. left.
  - case_decide; cbn; intros [->|Hin]%elem_of_cons; try (by left);
      right; apply IH; [by right|done].
Qed.

Lemma group_runs_head (l : list (option string)) c n g :
  group_runs l = (c, n) :: g -> exists l', l = c :: l'.
Proof.
  destruct l as [|c0 l]; [done|]. cbn.
  destruct (group_runs l) as [|[c' n'] g']; [|case_decide]; intros; simplify_eq;
    eauto.
Qed.

Lemma group_runs_NoDup (l : list (option string)) :
  StronglySorted category_le l -> NoDup (group_runs l).*1.
Proof.
  induction 1 as [|c l Hl IH Hc]; [constructor|]. cbn.
  destruct (group_runs l) as [|[c' n] g] eqn:Hg; [by apply NoDup_singleton|].
  case_decide as Hcc'; [by subst|]. cbn. apply NoDup_cons. split; [|done].
  intros Hin. apply Hcc'.
  destruct (group_runs_head _ _ _ _ Hg) as [l' ->].
  apply StronglySorted_inv in Hl as [_ Hc'].
  assert (c ∈ c' :: l') as Hcl.
  { apply group_runs_keys. rewrite Hg. exact Hin. }
  apply elem_of_cons in Hcl as [->|Hcl]; [done|].
  apply (anti_symm category_le).
  - eapply Forall_forall in Hc; [exact Hc|left].
  - eapply Forall_forall in Hc'; [exact Hc'|done].
Qed.

(** *** The [counts] dict *)

Lemma NoDup_PLANET_TYPES : NoDup PLANET_TYPES.
Proof. apply (bool_decide_unpack _). by vm_compute. Qed.

Lemma sum_counts_insert (l : list string) (counts : gmap string nat) k c :
  NoDup l -> k ∈ l ->
  (sum_list ((fun x => default 0 (<[k:=c]> counts !! x)) <$> l)
   + default 0 (counts !! k)
   = sum_list ((fun x => default 0 (counts !! x)) <$> l) + c)%nat.
Proof.
  induction 1 as [|x l Hx Hl IH]; [by intros ?%elem_of_nil|].
  intros [->|Hk]%elem_of_cons; cbn.
  - rewrite lookup_insert_eq. cbn.
    assert (Forall (fun y => <[x:=c]> counts !! y = counts !! y) l) as Hrest.
    { apply Forall_forall. intros y Hy. apply lookup_insert_ne. by intros ->. }
    assert ((fun y => default 0 (<[x:=c]> counts !! y)) <$> l
            = (fun y => default 0 (counts !! y)) <$> l) as ->; [|lia].
    apply list_fmap_ext. intros i y Hy.
    eapply Forall_forall in Hrest as ->; [done|]. by eapply list_elem_of_lookup_2.
  - rewrite lookup_insert_ne by (by intros ->). specialize (IH Hk). lia.
Qed.

(** Every key of a [counts] dict that the loop starts from stays a key. *)
Lemma tally_dom (counts : gmap string nat) group :
  is_Some (counts !! "Barren") -> dom (tally counts group) = dom counts.
Proof.
  intros HB. assert ("Barren" ∈ dom counts) by by apply elem_of_dom.
  destruct group as [[cat|] c]; cbn; [case_decide as Hc|].
  - apply elem_of_dom in Hc. rewrite dom_insert_L.
    by apply subseteq_union_1_L, singleton_subseteq_l.
  - rewrite dom_insert_L. by apply subseteq_union_1_L, singleton_subseteq_l.
  - rewrite dom_insert_L. by apply subseteq_union_1_L, singleton_subseteq_l.
Qed.

Lemma foldl_tally_dom groups (counts : gmap string nat) :
  is_Some (counts !! "Barren") -> dom (foldl tally counts groups) = dom counts.
Proof.
  revert counts. induction groups as [|g groups IH]; intros counts HB; [done|].
  cbn. rewrite IH, tally_dom; [done..|].
  apply elem_of_dom. rewrite tally_dom by done. by apply elem_of_dom.
Qed.

(** Groups with distinct known keys are all kept. *)
Lemma foldl_tally_known groups (counts : gmap string nat) :
  NoDup groups.*1 ->
  Forall (fun g => exists k, g.1 = Some k /\ k ∈ PLANET_TYPES /\ counts !! k = Some 0%nat)
         groups ->
  sum_counts (foldl tally counts groups)
  = (sum_counts counts + sum_list groups.*2)%nat.
Proof.
  revert counts. induction groups as [|[cat c] groups IH]; intros counts Hnd Hall.
  { cbn. lia. }
  cbn in Hnd. apply NoDup_cons in Hnd as [Hcat Hnd].
  apply Forall_cons in Hall as [(k & Hk & Hin & Hzero) Hall]. cbn in Hk. subst cat.
  change (foldl tally counts ((Some k, c) :: groups))
    with (foldl tally (tally counts (Some k, c)) groups).
  assert (tally counts (Some k, c) = <[k:=c]> counts) as ->.
  { cbn. by rewrite decide_True by (by rewrite Hzero). }
  rewrite IH; [|done|].
  - pose proof (sum_counts_insert PLANET_TYPES counts k c NoDup_PLANET_TYPES Hin)
      as Hsum.
    rewrite Hzero in Hsum. unfold sum_counts. cbn in Hsum |- *. lia.
  - apply Forall_forall. intros [cat' c'] Hg.
    eapply Forall_forall in Hall as (k' & Hk' & Hin' & Hzero'); [|exact Hg].
    cbn in Hk'. subst cat'. exists k'. repeat split; [done|].
    rewrite lookup_insert_ne; [done|]. intros ->. apply Hcat.
    apply list_elem_of_fmap. by exists (Some k', c').
Qed.

Lemma zero_counts_lookup k : k ∈ PLANET_TYPES -> zero_counts !! k = Some 0%nat.
Proof.
  unfold PLANET_TYPES. rewrite !elem_of_cons, elem_of_nil.
  intros [->|[->|[->|[->|[->|[->|[->|[->|[->|[->|[]]]]]]]]]]]; by vm_compute.
Qed.

(** The returned mapping has the ten categories as keys, whatever is
    stored. *)
Lemma counts_by_category_region_keys d region_id :
  dom (counts_by_category_region d region_id) = list_to_set PLANET_TYPES.
Proof.
  unfold counts_by_category_region. rewrite foldl_tally_dom.
  - unfold zero_counts. by rewrite dom_list_to_map_L.
  - rewrite zero_counts_lookup; [done|]. unfold PLANET_TYPES.
    do 5 right. left.
Qed.

(** When every fact row of the region has one of the ten categories, the
    ten counts add up to the number of rows of the region. *)
Lemma counts_by_category_region_known d region_id :
  (forall k p, planets d !! k = Some p -> regionID p = Some region_id ->
          exists c, category p = Some c /\ c ∈ PLANET_TYPES) ->
  sum_counts (counts_by_category_region d region_id)
  = count_planets_region d region_id.
Proof.
  intros Hknown. unfold counts_by_category_region, count_planets_region.
  set (rows := filter (fun kv => regionID kv.2 = Some region_id)
                 (map_to_list (planets d))).
  unfold group_by_category.
  set (sorted := merge_sort category_le ((fun kv => category kv.2) <$> rows)).
  assert (sorted ≡ₚ (fun kv => category kv.2) <$> rows) as Hperm
    by apply merge_sort_Permutation.
  rewrite foldl_tally_known.
  - rewrite group_runs_total, Hperm, length_fmap. by vm_compute.
  - apply group_runs_NoDup. apply StronglySorted_merge_sort; apply _.
  - apply Forall_forall. intros [cat n] Hg.
    assert (cat ∈ sorted) as Hcat.
    { apply group_runs_keys, list_elem_of_fmap. by exists (cat, n). }
    rewrite Hperm in Hcat. apply list_elem_of_fmap in Hcat as ([k p] & -> & Hkp).
    apply list_elem_of_filter in Hkp as [Hregion Hkp].
    apply elem_of_map_to_list in Hkp.
    destruct (Hknown k p Hkp Hregion) as (c & Hc & Hin).
    exists c. cbn. split; [done|]. split; [done|]. by apply zero_counts_lookup.
Qed.

(** C4, at a fact table with one Barren row and one row whose category
    ("Asteroid") is not one of the ten: the region has two rows, the ten
    counts add up to one, and the Barren bucket holds 1 where folding the
    foreign row into it gives 2. *)
Theorem counts_by_category_region_loses_rows :
  count_planets_region Scenario.foreign_category 10000002 = 2%nat /\
  sum_counts (counts_by_category_region Scenario.foreign_category 10000002) = 1%nat /\
  counts_by_category_region Scenario.foreign_category 10000002 !! "Barren"
  = Some 1%nat.
Proof. by vm_compute. Qed.

(** * More of the code *)

(** ** Upserts as a union of maps *)

Section UpsertAlgebra.
Context {V : Type}.
Implicit Types (t : gmap Z V) (rows : list (Z * V)).

(** Writing [rows] is laying the map of their last occurrences over the
    table. *)
Lemma executemany_union rows t :
  executemany rows t = list_to_map (reverse rows) ∪ t.
Proof.
  induction rows as [|[k v] rows IH] using rev_ind.
  - cbn. by rewrite (left_id_L ∅ (∪)).
  - rewrite executemany_app, reverse_snoc, list_to_map_cons. cbn.
    by rewrite IH, insert_union_l.
Qed.

Lemma executemany_idemp rows t :
  executemany rows (executemany rows t) = executemany rows t.
Proof.
  rewrite !executemany_union.
  by rewrite (assoc_L (∪)), (idemp_L (∪)).
Qed.

Lemma executemany_Permutation rows1 rows2 t :
  NoDup rows1.*1 -> rows1 ≡ₚ rows2 ->
  executemany rows1 t = executemany rows2 t.
Proof.
  intros Hnd Hperm. rewrite !executemany_union. f_equal.
  apply list_to_map_proper.
  - by rewrite fmap_reverse, reverse_Permutation.
  - by rewrite !reverse_Permutation.
Qed.

End UpsertAlgebra.

Section ImportAlgebra.
Context `{Builtins}.

(** X1.  Importing a reference file a second time changes nothing, for each
    of the four reference importers: both imports return and the second
    leaves the connection as the first left it. *)
Theorem imports_idempotent (reader : list csv_row) (w : world) :
  let again (import : list csv_row -> M unit) :=
    let once := import reader w in
    let twice := import reader once.2 in
    once.1 = Return tt /\ twice.1 = Return tt /\ con twice.2 = con once.2 in
  again (import_csv_invTypes no_failure) /\
  again (import_csv_mapRegions no_failure) /\
  again (import_csv_mapConstellations no_failure) /\
  again (import_csv_mapSolarSystems no_failure).
Proof.
  cbv beta zeta.
  rewrite !import_csv_invTypes_ok, !import_csv_mapRegions_ok,
    !import_csv_mapConstellations_ok, !import_csv_mapSolarSystems_ok.
  unfold commit, with_db, with_invTypes, with_mapRegions, with_mapConstellations,
    with_mapSolarSystems.
  cbn -[executemany]. by rewrite !executemany_idemp.
Qed.

(** X2.  When no two accepted rows of a reference file share a key, the
    order of its rows does not matter to the importer. *)
Theorem imports_ignore_row_order (reader1 reader2 : list csv_row) (w : world) :
  reader1 ≡ₚ reader2 ->
  (NoDup (omap invTypes_row reader1).*1 ->
   import_csv_invTypes no_failure reader1 w
   = import_csv_invTypes no_failure reader2 w) /\
  (NoDup (omap mapRegions_row reader1).*1 ->
   import_csv_mapRegions no_failure reader1 w
   = import_csv_mapRegions no_failure reader2 w) /\
  (NoDup (omap mapConstellations_row reader1).*1 ->
   import_csv_mapConstellations no_failure reader1 w
   = import_csv_mapConstellations no_failure reader2 w) /\
  (NoDup (omap mapSolarSystems_row reader1).*1 ->
   import_csv_mapSolarSystems no_failure reader1 w
   = import_csv_mapSolarSystems no_failure reader2 w).
Proof.
  intros Hperm.
  rewrite !import_csv_invTypes_ok, !import_csv_mapRegions_ok,
    !import_csv_mapConstellations_ok, !import_csv_mapSolarSystems_ok.
  repeat split; intros Hnd;
    (apply run_eq; [done| |by rewrite Hperm]);
    f_equal; apply with_db_ext; f_equal;
    (apply executemany_Permutation; [done|by rewrite Hperm]).
Qed.

End ImportAlgebra.

(** ** Listings, names and totals *)

#[global] Instance nocase_le_total : Total nocase_le.
Proof. intros a b. unfold nocase_le. apply (total String.le). Qed.

#[global] Instance nocase_le_trans : Transitive nocase_le.
Proof.
  intros a b c. unfold nocase_le. apply (transitivity (R := String.le)).
Qed.

Section ListingSpec.
Context {V : Type} (name : V -> option string) (keep : V -> bool).


End ListingSpec.




(** X5.  For a row that a listing shows, the name query returns the listed
    name; for an id without a row it returns the id in decimal; for a row
    whose name is NULL it returns NULL and not the id. *)
Theorem names_of_listed_rows (d : database) :
  (forall k n, (k, n) ∈ list_regions d -> region_name d k = Some n) /\
  (forall r k n, (k, n) ∈ constellations_in_region d r ->
                 constellation_name d k = Some n) /\
  (forall c k n, (k, n) ∈ systems_in_constellation d c ->
                 system_name d k = Some n) /\
  (forall k, mapRegions d !! k = None -> region_name d k = Some (py_str k)) /\
  (forall k, mapConstellations d !! k = None ->
             constellation_name d k = Some (py_str k)) /\
  (forall k, mapSolarSystems d !! k = None -> system_name d k = Some (py_str k)) /\
  (forall k, mapRegions d !! k = Some None -> region_name d k = None).
Proof.
  unfold region_name, constellation_name, system_name.
  split; [|split; [|split; [|split; [|split; [|split]]]]].
  - intros k n [Hk _]%elem_of_list_regions. by rewrite Hk.
  - intros r k n (c & Hc & Hn & _)%elem_of_constellations_in_region.
    by rewrite Hc.
  - intros c k n (s & Hs & Hn & _)%elem_of_systems_in_constellation.
    by rewrite Hs.
  - by intros k ->.
  - by intros k ->.
  - by intros k ->.
  - by intros k ->.
Qed.

Lemma length_bind_sum {A B} (g : A -> list B) (l : list A) :
  length (l ≫= g) = sum_list_with (fun x => length (g x)) l.
Proof.
  induction l as [|x l IH]; [done|]. cbn. by rewrite length_app, IH.
Qed.

Lemma sum_list_with_ext {A} (f g : A -> nat) (l : list A) :
  (forall x, x ∈ l -> f x = g x) -> sum_list_with f l = sum_list_with g l.
Proof.
  induction l as [|x l IH]; intros Hfg; [done|]. cbn.
  rewrite (Hfg x) by left. rewrite IH; [done|].
  intros y Hy. apply Hfg. by right.
Qed.

Lemma sum_list_with_zero {A} (l : list A) : sum_list_with (fun _ => 0) l = 0.
Proof. induction l; [done|]. done. Qed.

Lemma sum_list_with_add {A} (f g : A -> nat) (l : list A) :
  sum_list_with (fun x => f x + g x) l = sum_list_with f l + sum_list_with g l.
Proof. induction l as [|x l IH]; [done|]. cbn. rewrite IH. lia. Qed.

Lemma sum_list_with_swap {A B} (F : A -> B -> nat) (la : list A) (lb : list B) :
  sum_list_with (fun a => sum_list_with (F a) lb) la
  = sum_list_with (fun b => sum_list_with (fun a => F a b) la) lb.
Proof.
  induction la as [|a la IH]; cbn.
  - by rewrite sum_list_with_zero.
  - by rewrite IH, sum_list_with_add.
Qed.

Lemma sum_list_with_filter {A} (P : A -> Prop) `{forall x, Decision (P x)}
    (l : list A) :
  sum_list_with (fun x => if decide (P x) then 1 else 0) l = length (filter P l).
Proof.
  induction l as [|x l IH]; [done|]. rewrite filter_cons. cbn.
  destruct (decide (P x)); cbn; by rewrite IH.
Qed.

Lemma sum_list_with_named {V} (name : V -> option string) (keep : V -> bool)
    (f : Z -> nat) (t : gmap Z V) :
  sum_list_with (fun kn => f kn.1) (named name keep t)
  = sum_list_with (fun kv => if keep kv.2 && valid_name (name kv.2)
                             then f kv.1 else 0) (map_to_list t).
Proof.
  unfold named. induction (map_to_list t) as [|[k v] l IH]; [done|]. cbn.
  destruct (keep v && valid_name (name v)) eqn:Hk; [|done].
  apply andb_true_iff in Hk as [_ Hv].
  destruct (name v); [|done]. cbn. by rewrite IH.
Qed.

(** X6.  [total_planets] is the sum of [count_planets_region] over the
    regions that [list_regions] lists. *)
Theorem total_planets_sums_regions (d : database) :
  total_planets d
  = sum_list_with (fun kn => count_planets_region d kn.1) (list_regions d).
Proof.
  unfold total_planets, list_regions.
  rewrite merge_sort_Permutation, sum_list_with_named, length_bind_sum.
  rewrite (sum_list_with_ext _
             (fun p => sum_list_with
                         (fun r => if decide (regionID p.2 = Some r.1) then
                                     if valid_name r.2 then 1 else 0
                                   else 0)
                         (map_to_list (mapRegions d)))).
  2: { intros p _. rewrite length_bind_sum. apply sum_list_with_ext.
       intros r _. destruct (decide (regionID p.2 = Some r.1)) as [Hp|Hp].
       - rewrite bool_decide_eq_true_2 by done. by destruct (valid_name r.2).
       - by rewrite bool_decide_eq_false_2 by (by intros ?). }
  rewrite sum_list_with_swap. apply sum_list_with_ext. intros [k name] _.
  unfold count_planets_region. rewrite <- sum_list_with_filter.
  cbn [fst snd andb]. unfold id. destruct (valid_name name).
  - done.
  - etrans; [|apply (sum_list_with_zero (map_to_list (planets d)))].
    apply sum_list_with_ext. intros p _. by case_decide.
Qed.

(** ** All or nothing *)

Lemma returns_as_refl {A} (m : M A) : returns_as m m.
Proof. by intros w a w'. Qed.

Lemma returns_as_bind {A B} (m m0 : M A) (k k0 : A -> M B) :
  returns_as m m0 -> (forall a, returns_as (k a) (k0 a)) ->
  returns_as (bind m k) (bind m0 k0).
Proof.
  intros Hm Hk w b w'. unfold bind.
  destruct (m w) as [[a|e] w1] eqn:Hmw; [|done].
  rewrite (Hm _ _ _ Hmw). apply Hk.
Qed.

Section Success.
Context `{Builtins}.
Variable fails : nat -> bool.

Lemma returns_as_attempt error f :
  returns_as (attempt fails error f) (attempt no_failure error f).
Proof.
  intros w a w'. unfold attempt. cbn. by destruct (fails (clock w)).
Qed.

Lemma returns_as_begin : returns_as (execute_begin fails) (execute_begin no_failure).
Proof.
  intros w a w'. unfold execute_begin.
  destruct (journal (con w)); [done|]. apply returns_as_attempt.
Qed.

Lemma returns_as_executemany_planets rows :
  returns_as (executemany_planets fails rows) (executemany_planets no_failure rows).
Proof.
  induction rows as [|row rows IH]; [apply returns_as_refl|]. cbn.
  apply returns_as_bind; [apply returns_as_attempt|done].
Qed.

Lemma returns_as_planets_loop batch type_map reader rows inserted :
  returns_as (planets_loop fails batch type_map reader rows inserted)
             (planets_loop no_failure batch type_map reader rows inserted).
Proof.
  revert rows inserted.
  induction reader as [|r reader IH]; intros rows inserted; cbn;
    (apply returns_as_bind; [apply returns_as_attempt|intros _]).
  - destruct rows; [apply returns_as_refl|].
    apply returns_as_bind;
      [apply returns_as_executemany_planets|intros _; apply returns_as_refl].
  - destruct (planet_row type_map r); [|apply IH].
    case_decide; [|apply IH].
    apply returns_as_bind; [apply returns_as_executemany_planets|intros _; apply IH].
Qed.

Lemma returns_as_rebuild_body batch type_map reader :
  returns_as (rebuild_body fails batch type_map reader)
             (rebuild_body no_failure batch type_map reader).
Proof.
  unfold rebuild_body.
  apply returns_as_bind; [apply returns_as_begin|intros _].
  do 4 (apply returns_as_bind; [apply returns_as_attempt|intros _]).
  apply returns_as_bind; [apply returns_as_planets_loop|intros inserted].
  do 4 (apply returns_as_bind; [apply returns_as_attempt|intros _]).
  apply returns_as_refl.
Qed.

Lemma returns_as_build_planets batch reader :
  returns_as (build_planets fails batch reader)
             (build_planets no_failure batch reader).
Proof.
  intros w n w'. unfold build_planets, try_finally, try_except.
  unfold bind at 1 2 3 4 9 10 11 12, run. cbn [con clock].
  set (w1 := {| con := _; clock := clock w |}).
  destruct (rebuild_body fails batch (load_type_map (db (con w))) reader w1)
    as [[m|e] w2] eqn:Hbody.
  - rewrite (returns_as_rebuild_body _ _ _ _ _ _ Hbody). done.
  - cbn. done.
Qed.

Lemma returns_as_executemany_into {V} (write : Z * V -> database -> database) rows :
  returns_as (executemany_into fails write rows)
             (executemany_into no_failure write rows).
Proof.
  induction rows as [|row rows IH]; [apply returns_as_refl|]. cbn.
  apply returns_as_bind; [apply returns_as_attempt|done].
Qed.

Lemma returns_as_batch_loop {V} batch (parse : csv_row -> option (Z * V)) write
    reader rows :
  returns_as (batch_loop fails batch parse write reader rows)
             (batch_loop no_failure batch parse write reader rows).
Proof.
  revert rows.
  induction reader as [|r reader IH]; intros rows; cbn;
    (apply returns_as_bind; [apply returns_as_attempt|intros _]).
  - destruct rows; [apply returns_as_refl|apply returns_as_executemany_into].
  - destruct (parse r); [|apply IH].
    case_decide; [|apply IH].
    apply returns_as_bind; [apply returns_as_executemany_into|intros _; apply IH].
Qed.

Lemma returns_as_with_con {A} (body body0 : M A) :
  returns_as body body0 -> returns_as (with_con fails body) (with_con no_failure body0).
Proof.
  intros Hbody w a w'. unfold with_con, try_except.
  destruct ((x <- body;; attempt fails DatabaseError commit;; ret x)%py w)
    as [[x|e] w1] eqn:Hrun.
  - intros [= -> ->].
    assert (returns_as (x <- body;; attempt fails DatabaseError commit;; ret x)%py
              (x <- body0;; attempt no_failure DatabaseError commit;; ret x)%py)
      as Hinner.
    { apply returns_as_bind; [done|intros x].
      apply returns_as_bind; [apply returns_as_attempt|intros _].
      apply returns_as_refl. }
    by rewrite (Hinner _ _ _ Hrun).
  - unfold bind, run, raise. done.
Qed.

Lemma returns_as_import {V} (parse : csv_row -> option (Z * V)) write reader :
  returns_as
    (attempt fails ReadError id ;;
     with_con fails (batch_loop fails BATCH_SIZE parse write reader []))%py
    (attempt no_failure ReadError id ;;
     with_con no_failure (batch_loop no_failure BATCH_SIZE parse write reader []))%py.
Proof.
  apply returns_as_bind; [apply returns_as_attempt|intros _].
  apply returns_as_with_con, returns_as_batch_loop.
Qed.

Lemma returns_as_clear_all : returns_as (clear_all fails) (clear_all no_failure).
Proof.
  unfold clear_all.
  do 5 (apply returns_as_bind; [apply returns_as_attempt|intros _]).
  apply returns_as_attempt.
Qed.

Lemma returns_as_reference_load local_paths :
  returns_as (reference_load fails local_paths)
             (reference_load no_failure local_paths).
Proof.
  unfold reference_load.
  apply returns_as_bind; [apply returns_as_clear_all|intros _].
  do 3 (apply returns_as_bind; [apply returns_as_import|intros _]).
  apply returns_as_import.
Qed.

End Success.

Lemma categorize_type_range type_name : categorize_type type_name ∈ PLANET_TYPES.
Proof.
  unfold categorize_type, PLANET_TYPES. split_tests;
    repeat (first [apply list_elem_of_here | apply list_elem_of_further]).
Qed.

Lemma rebuilt_indices rows d :
  schema_ensured d -> indices (rebuilt rows d) = indices d.
Proof.
  intros (Hr & Hc & Hs). cbn. apply set_eq. intros i.
  rewrite !elem_of_union, !elem_of_difference, !elem_of_singleton.
  split; [|destruct (decide (i = "idx_planets_region"));
            destruct (decide (i = "idx_planets_constellation"));
            destruct (decide (i = "idx_planets_system")); tauto].
  intros [[[[[[? _] _] _]| ->]| ->]| ->]; done.
Qed.

Lemma missing_or_zero_not x : ~ missing_or_zero x -> exists n, x = Some n /\ n <> 0%Z.
Proof.
  unfold missing_or_zero. destruct x as [n|]; [|tauto].
  intros Hx. exists n. split; [done|]. intros ->. tauto.
Qed.

Section RebuildAlgebra.
Context `{Builtins}.

Lemma planet_row_well_formed type_map r k p :
  planet_row type_map r = Some (k, p) -> well_formed_body k p.
Proof.
  intros Hrow. destruct (decide (rejected r)) as [Hrej|Hacc].
  { apply (planet_row_rejected type_map) in Hrej. congruence. }
  destruct (planet_row_accepted type_map r Hacc) as (i & t & Hi & Ht & Hrow').
  rewrite Hrow' in Hrow. simplify_eq. unfold rejected in Hacc.
  destruct (missing_or_zero_not (try_int (r !! "itemID") None)) as (i' & Hi' & Hi0);
    [tauto|].
  destruct (missing_or_zero_not (try_int (r !! "typeID") None)) as (t' & Ht' & Ht0);
    [tauto|].
  destruct (missing_or_zero_not (try_int (r !! "solarSystemID") None))
    as (s & Hs & Hs0); [tauto|].
  simplify_eq. repeat split; cbn; eauto using categorize_type_range.
Qed.

Lemma executemany_Forall (P : Z -> planet -> Prop) rows t :
  Forall (fun kv => P kv.1 kv.2) rows -> map_Forall P t ->
  map_Forall P (executemany rows t).
Proof.
  unfold executemany. revert t.
  induction rows as [|[k p] rows IH]; intros t Hrows Ht; [done|].
  apply Forall_cons in Hrows as [Hp Hrows]. cbn. apply IH; [done|].
  by apply map_Forall_insert_2.
Qed.

Lemma accepted_well_formed type_map reader :
  Forall (fun kv => well_formed_body kv.1 kv.2) (omap (planet_row type_map) reader).
Proof.
  apply Forall_forall. intros [k p] (r & _ & Hrow)%list_elem_of_omap.
  by eapply planet_row_well_formed.
Qed.

Section AnyFailure.
Variable fails : nat -> bool.

Lemma build_planets_returns batch reader w n :
  (build_planets fails batch reader w).1 = Return n ->
  build_planets fails batch reader w = build_planets no_failure batch reader w.
Proof.
  intros Hn. destruct (build_planets fails batch reader w) as [r w'] eqn:Hresult.
  cbn in Hn. subst r. symmetry. by apply returns_as_build_planets in Hresult.
Qed.

Lemma build_planets_cases reader w :
  let result := build_planets_from_mapDenormalize fails reader w in
  db (con result.2) = db (con w) \/
  db (con result.2)
  = rebuilt (omap (planet_row (load_type_map (db (con w)))) reader) (db (con w)).
Proof.
  intros result. destruct (result.1) as [n|e] eqn:Hr.
  - right. unfold result, build_planets_from_mapDenormalize.
    by rewrite (build_planets_returns _ _ _ _ Hr), build_planets_ok.
  - left. by apply (build_planets_atomic fails PLANET_BATCH_SIZE reader w) with e.
Qed.

(** X7.  The rebuild never returns after a partial write: whatever statement
    is set to fail, when the method returns a count, that count is the
    number of accepted rows and all of them are stored. *)
Theorem rebuild_success_is_complete (reader : list csv_row) (w : world) (n : nat) :
  let result := build_planets_from_mapDenormalize fails reader w in
  let accepted := omap (planet_row (load_type_map (db (con w)))) reader in
  result.1 = Return n ->
  n = length accepted /\
  planets (db (con result.2)) = executemany accepted (planets (db (con w))) /\
  db (con result.2) = rebuilt accepted (db (con w)).
Proof.
  intros result accepted Hn. unfold result, build_planets_from_mapDenormalize in *.
  rewrite (build_planets_returns _ _ _ _ Hn) in Hn |- *.
  rewrite build_planets_ok in Hn |- *. fold accepted in Hn |- *. cbn in *.
  by simplify_eq.
Qed.

(** X8.  Whatever fails, the rebuild leaves the four reference tables as
    they were, and the set of indices too when the three indices of
    [_ensure_schema] existed. *)
Theorem rebuild_keeps_reference_tables (reader : list csv_row) (w : world) :
  let d := db (con w) in
  let d' := db (con (build_planets_from_mapDenormalize fails reader w).2) in
  mapRegions d' = mapRegions d /\
  mapConstellations d' = mapConstellations d /\
  mapSolarSystems d' = mapSolarSystems d /\
  invTypes d' = invTypes d /\
  (schema_ensured d -> indices d' = indices d).
Proof.
  intros d d'. destruct (build_planets_cases reader w) as [Hd|Hd];
    fold d' d in Hd; rewrite Hd; repeat split; try done.
  apply rebuilt_indices.
Qed.

(** X9.  Whatever fails, the rebuild keeps every fact row well formed: group
    7, non-zero itemID, typeID and solarSystemID, and a category that is one
    of the ten and is the class of the stored type name. *)
Theorem rebuild_keeps_well_formed (reader : list csv_row) (w : world) :
  map_Forall well_formed_body (planets (db (con w))) ->
  map_Forall well_formed_body
    (planets (db (con (build_planets_from_mapDenormalize fails reader w).2))).
Proof.
  intros Hwf. destruct (build_planets_cases reader w) as [Hd|Hd]; rewrite Hd.
  - done.
  - cbn. apply executemany_Forall; [apply accepted_well_formed|done].
Qed.

End AnyFailure.
(** X10.  Rebuilding a second time from the same source returns the same
    count and leaves the same database. *)
Theorem rebuild_idempotent (reader : list csv_row) (w : world) :
  let once := build_planets_from_mapDenormalize no_failure reader w in
  let twice := build_planets_from_mapDenormalize no_failure reader once.2 in
  twice.1 = once.1 /\ db (con twice.2) = db (con once.2).
Proof.
  intros once twice. unfold twice, once, build_planets_from_mapDenormalize.
  rewrite !build_planets_ok. cbn -[executemany]. split; [done|].
  unfold rebuilt, with_indices, with_planets. cbn -[executemany].
  rewrite executemany_idemp. f_equal.
  apply set_eq. intros i.
  rewrite !elem_of_union, !elem_of_difference, !elem_of_union,
    !elem_of_difference, !elem_of_singleton.
  destruct (decide (i = "idx_planets_region"));
    destruct (decide (i = "idx_planets_constellation"));
    destruct (decide (i = "idx_planets_system")); tauto.
Qed.

(** X11.  When no two accepted rows share an itemID, the order of the source
    rows does not matter to the rebuild. *)
Theorem rebuild_ignores_row_order (reader1 reader2 : list csv_row) (w : world) :
  NoDup (omap (planet_row (load_type_map (db (con w)))) reader1).*1 ->
  reader1 ≡ₚ reader2 ->
  let result1 := build_planets_from_mapDenormalize no_failure reader1 w in
  let result2 := build_planets_from_mapDenormalize no_failure reader2 w in
  result1.1 = result2.1 /\ db (con result1.2) = db (con result2.2).
Proof.
  intros Hnd Hperm result1 result2.
  unfold result1, result2, build_planets_from_mapDenormalize.
  rewrite !build_planets_ok. cbn -[executemany]. split.
  - by rewrite Hperm.
  - unfold rebuilt. f_equal. f_equal.
    apply executemany_Permutation; [done|]. by rewrite Hperm.
Qed.

Lemma load_type_map_get d t :
  mjoin (load_type_map d !! t)
  = match invTypes d !! t with
    | Some ty => if decide (it_groupID ty = Some 7%Z) then it_typeName ty else None
    | None => None
    end.
Proof.
  unfold load_type_map. rewrite lookup_fmap, map_lookup_filter.
  destruct (invTypes d !! t) as [ty|]; [|done]. cbn.
  destruct (decide (it_groupID ty = Some 7%Z)) as [Hg|Hg].
  - by rewrite option_guard_True.
  - by rewrite option_guard_False.
Qed.

(** X12.  The type name of an accepted row is the one [invTypes] has for its
    typeID among the types of group 7, and its category is the class of that
    name; a typeID that is not there, or not of group 7, gives a row without
    type name, classified Barren. *)
Theorem planet_type_lookup (d : database) (r : csv_row) (k : Z) (p : planet) :
  planet_row (load_type_map d) r = Some (k, p) ->
  exists t, typeID p = Some t /\
    typeName p
    = match invTypes d !! t with
      | Some ty => if decide (it_groupID ty = Some 7%Z) then it_typeName ty else None
      | None => None
      end /\
    category p = Some (categorize_type (typeName p)) /\
    ((forall ty, invTypes d !! t = Some ty -> it_groupID ty <> Some 7%Z) ->
     typeName p = None /\ category p = Some "Barren").
Proof.
  intros Hrow. destruct (decide (rejected r)) as [Hrej|Hacc].
  { apply (planet_row_rejected (load_type_map d)) in Hrej. congruence. }
  destruct (planet_row_accepted (load_type_map d) r Hacc)
    as (i & t & Hi & Ht & Hrow').
  rewrite Hrow' in Hrow. simplify_eq. exists t. cbn.
  split; [done|]. split; [apply load_type_map_get|]. split; [done|].
  intros Hnone. rewrite load_type_map_get.
  destruct (invTypes d !! t) as [ty|]; [|done].
  by rewrite decide_False by (by apply Hnone).
Qed.

End RebuildAlgebra.

(** ** The refresh *)

(** *** Counting by category, for any selection of fact rows *)

Lemma tally_groups_keys (rows : list (Z * planet)) :
  dom (foldl tally zero_counts (group_by_category rows)) = list_to_set PLANET_TYPES.
Proof.
  rewrite foldl_tally_dom.
  - unfold zero_counts. by rewrite dom_list_to_map_L.
  - rewrite zero_counts_lookup; [done|]. unfold PLANET_TYPES.
    do 5 right. left.
Qed.

Lemma tally_groups_total (rows : list (Z * planet)) :
  Forall (fun kv => exists c, category kv.2 = Some c /\ c ∈ PLANET_TYPES) rows ->
  sum_counts (foldl tally zero_counts (group_by_category rows)) = length rows.
Proof.
  intros Hknown. unfold group_by_category.
  set (sorted := merge_sort category_le ((fun kv => category kv.2) <$> rows)).
  assert (sorted ≡ₚ (fun kv => category kv.2) <$> rows) as Hperm
    by apply merge_sort_Permutation.
  rewrite foldl_tally_known.
  - rewrite group_runs_total, Hperm, length_fmap. by vm_compute.
  - apply group_runs_NoDup. apply StronglySorted_merge_sort; apply _.
  - apply Forall_forall. intros [cat n] Hg.
    assert (cat ∈ sorted) as Hcat.
    { apply group_runs_keys, list_elem_of_fmap. by exists (cat, n). }
    rewrite Hperm in Hcat. apply list_elem_of_fmap in Hcat as (kv & -> & Hkv).
    eapply Forall_forall in Hknown as (c & Hc & Hin); [|exact Hkv].
    exists c. cbn. split; [done|]. split; [done|]. by apply zero_counts_lookup.
Qed.

(** [sum(counts.values())] is the sum over the ten categories when these
    are the keys. *)
Lemma sum_values_keys (l : list string) (counts : gmap string nat) :
  NoDup l -> dom counts = list_to_set l ->
  sum_values counts = sum_list ((fun k => default 0 (counts !! k)) <$> l).
Proof.
  unfold sum_values. intros Hnd. revert counts.
  induction Hnd as [|k l Hk Hnd IH]; intros counts Hdom.
  - cbn in Hdom. apply dom_empty_inv_L in Hdom as ->.
    by rewrite map_to_list_empty.
  - assert (is_Some (counts !! k)) as [v Hv].
    { apply elem_of_dom. rewrite Hdom. apply elem_of_list_to_set. left. }
    rewrite <- (map_to_list_delete _ _ _ Hv). cbn. rewrite Hv. cbn. f_equal.
    rewrite (IH (delete k counts)).
    + f_equal. apply list_fmap_ext. intros i x Hx.
      rewrite lookup_delete_ne; [done|]. intros ->.
      apply Hk. by eapply list_elem_of_lookup_2.
    + rewrite dom_delete_L, Hdom. cbn. apply set_eq. intros x.
      rewrite elem_of_difference, elem_of_union, elem_of_singleton,
        elem_of_list_to_set.
      split; [by intros [[->|?] ?]|]. intros Hx.
      split; [by right|]. by intros ->.
Qed.

Lemma sum_values_tally (rows : list (Z * planet)) :
  sum_values (foldl tally zero_counts (group_by_category rows))
  = sum_counts (foldl tally zero_counts (group_by_category rows)).
Proof.
  apply sum_values_keys; [apply NoDup_PLANET_TYPES|apply tally_groups_keys].
Qed.

Lemma database_ext (d1 d2 : database) :
  mapRegions d1 = mapRegions d2 -> mapConstellations d1 = mapConstellations d2 ->
  mapSolarSystems d1 = mapSolarSystems d2 -> invTypes d1 = invTypes d2 ->
  planets d1 = planets d2 -> indices d1 = indices d2 -> d1 = d2.
Proof. destruct d1, d2. cbn. by intros -> -> -> -> -> ->. Qed.

Section Refresh.
Context `{Builtins}.

Lemma bind_assoc {A B C} (m : M A) (k : A -> M B) (k' : B -> M C) w :
  bind (bind m k) k' w = bind m (fun a => bind (k a) k') w.
Proof. unfold bind. by destruct (m w) as [[a|e] w1]. Qed.

Lemma bind_cong {A B} (m : M A) (k k' : A -> M B) w :
  (forall a w', k a w' = k' a w') -> bind m k w = bind m k' w.
Proof. intros Hk. unfold bind. by destruct (m w) as [[a|e] w1]. Qed.

(** [work] is the downloads, then the reference load, then the rebuild. *)
Lemma work_unfold fails remote w :
  work fails remote w
  = (local_paths <- download_all fails remote ;;
     reference_load fails local_paths ;;
     build_planets_from_mapDenormalize fails (mapDenormalize_csv local_paths))%py w.
Proof.
  unfold work, reference_load. apply bind_cong. intros local_paths w1.
  do 4 (rewrite bind_assoc; apply bind_cong; intros ? ?; cbv beta).
  reflexivity.
Qed.

Lemma maybe_download_csv_ok file w :
  maybe_download_csv no_failure file w
  = (Return file, {| con := con w; clock := clock w + 4 |}).
Proof.
  unfold maybe_download_csv, download_file, try_except, bind, attempt, ret.
  cbn [no_failure]. apply run_eq; [done|done|cbn; lia].
Qed.

Lemma download_all_ok remote w :
  download_all no_failure remote w
  = (Return remote, {| con := con w; clock := clock w + 20 |}).
Proof.
  unfold download_all, bind. rewrite !maybe_download_csv_ok. unfold ret.
  destruct remote. apply run_eq; [done|done|cbn; lia].
Qed.

Lemma clear_all_ok w :
  clear_all no_failure w
  = (Return tt,
     {| con := commit (with_db delete_all_rows (con w)); clock := clock w + 6 |}).
Proof.
  unfold clear_all, bind, execute_dml, attempt. cbn [no_failure].
  apply run_eq; [done|done|cbn; lia].
Qed.

Lemma imported_tables local_paths d :
  invTypes (imported local_paths d)
  = executemany (omap invTypes_row (invTypes_csv local_paths)) ∅ /\
  mapRegions (imported local_paths d)
  = executemany (omap mapRegions_row (mapRegions_csv local_paths)) ∅ /\
  mapConstellations (imported local_paths d)
  = executemany (omap mapConstellations_row (mapConstellations_csv local_paths)) ∅ /\
  mapSolarSystems (imported local_paths d)
  = executemany (omap mapSolarSystems_row (mapSolarSystems_csv local_paths)) ∅ /\
  planets (imported local_paths d) = ∅ /\
  indices (imported local_paths d) = indices d.
Proof. done. Qed.

(** The reference load without a failure, in closed form. *)
Lemma reference_load_ok local_paths w :
  (reference_load no_failure local_paths w).1 = Return tt /\
  con (reference_load no_failure local_paths w).2
  = commit (with_db (imported local_paths) (con w)).
Proof.
  unfold reference_load, bind.
  rewrite clear_all_ok, import_csv_invTypes_ok, import_csv_mapRegions_ok,
    import_csv_mapConstellations_ok, import_csv_mapSolarSystems_ok.
  split; reflexivity.
Qed.

Lemma load_type_map_invTypes d1 d2 :
  invTypes d1 = invTypes d2 -> load_type_map d1 = load_type_map d2.
Proof. unfold load_type_map. by intros ->. Qed.

Lemma imported_type_map local_paths d1 d2 :
  load_type_map (imported local_paths d1) = load_type_map (imported local_paths d2).
Proof. by apply load_type_map_invTypes. Qed.

(** A refresh that does not fail, in closed form. *)
Lemma work_ok local_paths w :
  let d := imported local_paths (db (con w)) in
  let accepted := omap (planet_row (load_type_map d)) (mapDenormalize_csv local_paths) in
  (work no_failure local_paths w).1 = Return (length accepted) /\
  db (con (work no_failure local_paths w).2) = rebuilt accepted d.
Proof.
  intros d accepted.
  destruct (reference_load_ok local_paths {| con := con w; clock := clock w + 20 |})
    as [Hr Hc].
  assert (work no_failure local_paths w
          = build_planets_from_mapDenormalize no_failure
              (mapDenormalize_csv local_paths)
              (reference_load no_failure local_paths
                 {| con := con w; clock := clock w + 20 |}).2) as ->.
  { rewrite work_unfold. unfold bind at 1. rewrite download_all_ok. unfold bind.
    destruct (reference_load no_failure local_paths _) as [r w2].
    cbn in Hr. by subst r. }
  unfold build_planets_from_mapDenormalize. rewrite build_planets_ok.
  cbn [fst snd con db]. rewrite Hc. done.
Qed.

(** X13.  After a refresh without failure the five tables are what the five
    files say, whatever the database held before: each reference table is
    the upsert of the accepted rows of its file into an empty table, the fact
    table is the upsert of the accepted bodies, and the count is their
    number. *)
Theorem refresh_replaces_catalog (local_paths : sources) (w : world) :
  let result := work no_failure local_paths w in
  let d' := db (con result.2) in
  let accepted :=
    omap (planet_row (load_type_map d')) (mapDenormalize_csv local_paths) in
  result.1 = Return (length accepted) /\
  invTypes d' = executemany (omap invTypes_row (invTypes_csv local_paths)) ∅ /\
  mapRegions d' = executemany (omap mapRegions_row (mapRegions_csv local_paths)) ∅ /\
  mapConstellations d'
  = executemany (omap mapConstellations_row (mapConstellations_csv local_paths)) ∅ /\
  mapSolarSystems d'
  = executemany (omap mapSolarSystems_row (mapSolarSystems_csv local_paths)) ∅ /\
  planets d' = executemany accepted ∅ /\
  (forall w2,
     let result2 := work no_failure local_paths w2 in
     result2.1 = result.1 /\
     with_indices ∅ (db (con result2.2)) = with_indices ∅ d').
Proof.
  intros result d' accepted.
  destruct (work_ok local_paths w) as [Hn Hd]. fold result in Hn, Hd.
  fold d' in Hd.
  destruct (imported_tables local_paths (db (con w)))
    as (Ht & Hr & Hc & Hs & Hp & Hi).
  assert (load_type_map d' = load_type_map (imported local_paths (db (con w))))
    as Htm by (by rewrite Hd).
  unfold accepted. rewrite Htm.
  split; [exact Hn|]. rewrite Hd.
  change (invTypes (rebuilt ?a ?d)) with (invTypes d).
  change (mapRegions (rebuilt ?a ?d)) with (mapRegions d).
  change (mapConstellations (rebuilt ?a ?d)) with (mapConstellations d).
  change (mapSolarSystems (rebuilt ?a ?d)) with (mapSolarSystems d).
  change (planets (rebuilt ?a ?d)) with (executemany a (planets d)).
  rewrite Hp. do 5 (split; [done|]).
  intros w2. destruct (work_ok local_paths w2) as [Hn2 Hd2].
  rewrite Hn2, Hn, Hd2.
  rewrite (imported_type_map local_paths (db (con w2)) (db (con w))).
  split; [done|].
  destruct (imported_tables local_paths (db (con w2)))
    as (Ht2 & Hr2 & Hc2 & Hs2 & Hp2 & Hi2).
  apply database_ext;
    cbn [mapRegions mapConstellations mapSolarSystems invTypes planets indices
         with_indices with_planets rebuilt]; congruence.
Qed.

End Refresh.

Lemma rebuilt_schema_ensured rows d : schema_ensured (rebuilt rows d).
Proof.
  unfold schema_ensured. cbn.
  rewrite !elem_of_union, !elem_of_singleton. tauto.
Qed.

Lemma well_formed_categories (d : database) (P : Z * planet -> Prop)
    `{forall kv, Decision (P kv)} :
  map_Forall well_formed_body (planets d) ->
  Forall (fun kv => exists c, category kv.2 = Some c /\ c ∈ PLANET_TYPES)
         (filter P (map_to_list (planets d))).
Proof.
  intros Hwf. apply Forall_forall. intros [k p] [_ Hkp]%list_elem_of_filter.
  apply elem_of_map_to_list in Hkp. apply (Hwf k p Hkp).
Qed.

(** On well-formed fact rows the total of the breakdown is the plain
    count, at every level. *)
Lemma totals_agree (d : database) (id : Z) :
  map_Forall well_formed_body (planets d) ->
  sum_values (counts_by_category_region d id) = count_planets_region d id /\
  sum_values (counts_by_category_constellation d id)
  = count_planets_constellation d id /\
  sum_values (counts_by_category_system d id) = length (planets_in_system d id).
Proof.
  intros Hwf.
  unfold counts_by_category_region, counts_by_category_constellation,
    counts_by_category_system, count_planets_region, count_planets_constellation,
    planets_in_system, planets_in_system_rows.
  rewrite !sum_values_tally, !tally_groups_total by by apply well_formed_categories.
  by rewrite length_fmap, merge_sort_Permutation.
Qed.

Section RefreshFacts.
Context `{Builtins}.
Variable fails : nat -> bool.

Lemma steady_run (I : connection -> Prop) f :
  (forall c, I c -> I (f c)) -> steady I (run f).
Proof. intros Hf w Hw. by apply Hf. Qed.

Lemma steady_raise {A} (I : connection -> Prop) e : steady I (@raise A e).
Proof. by intros w Hw. Qed.

Lemma steady_try_except {A} I (body : M A) handler :
  steady I body -> (forall e, steady I (handler e)) ->
  steady I (try_except body handler).
Proof.
  intros Hb Hh w Hw. unfold try_except. specialize (Hb w Hw).
  destruct (body w) as [[a|e] w1]; cbn in *; [done|]. by apply Hh.
Qed.

Lemma steady_weaken {A} (I J : connection -> Prop) (m : M A) :
  steady I m -> (forall c, I c -> J c) ->
  triple I m (fun r c => match r with Return _ => I c | Raise _ => J c end).
Proof.
  intros Hm HIJ w Hw. specialize (Hm w Hw). cbn in Hm.
  destruct (m w).1; [done|by apply HIJ].
Qed.

(** *** The downloads do not touch the connection *)

Lemma steady_download_file I : steady I (download_file fails).
Proof.
  unfold download_file.
  do 2 (apply steady_bind; [by apply steady_attempt|intros _]).
  by apply steady_attempt.
Qed.

Lemma steady_maybe_download_csv I file : steady I (maybe_download_csv fails file).
Proof.
  apply steady_try_except.
  - apply steady_bind; [apply steady_download_file|intros _].
    apply steady_bind; [by apply steady_attempt|intros _]. apply steady_ret.
  - intros [n|n|n|n]; try apply steady_raise.
    apply steady_bind; [apply steady_download_file|intros _; apply steady_ret].
Qed.

Lemma steady_download_all I remote : steady I (download_all fails remote).
Proof.
  unfold download_all.
  do 5 (apply steady_bind; [apply steady_maybe_download_csv|intros ?]).
  apply steady_ret.
Qed.

Lemma maybe_download_csv_returns file w a w' :
  maybe_download_csv fails file w = (Return a, w') -> a = file.
Proof.
  unfold maybe_download_csv, download_file, try_except, bind, attempt, ret, raise.
  repeat (match goal with
          | |- context [if fails ?n then _ else _] => destruct (fails n)
          end; cbn [clock con]);
    by intros [=].
Qed.

Lemma download_all_returns remote w local_paths w1 :
  download_all fails remote w = (Return local_paths, w1) ->
  local_paths = remote /\ con w1 = con w.
Proof.
  intros Hd. split.
  - revert Hd. unfold download_all, bind.
    destruct (maybe_download_csv fails (invTypes_csv remote) w)
      as [[a|?] wa] eqn:Ha; [|done].
    destruct (maybe_download_csv fails (mapDenormalize_csv remote) wa)
      as [[b|?] wb] eqn:Hb; [|done].
    destruct (maybe_download_csv fails (mapSolarSystems_csv remote) wb)
      as [[c|?] wc] eqn:Hc; [|done].
    destruct (maybe_download_csv fails (mapConstellations_csv remote) wc)
      as [[d|?] wd] eqn:Hd; [|done].
    destruct (maybe_download_csv fails (mapRegions_csv remote) wd)
      as [[e|?] we] eqn:He; [|done].
    apply maybe_download_csv_returns in Ha, Hb, Hc, Hd, He. subst.
    unfold ret. intros [= <- _]. by destruct remote.
  - pose proof (steady_download_all (fun c => c = con w) remote w eq_refl) as Hc.
    by rewrite Hd in Hc.
Qed.

(** *** What a reference importer keeps, also when it raises *)

Section Keeps.
Context {V : Type} (write : Z * V -> database -> database).
Context (I : connection -> Prop).
Hypothesis I_write : forall row c, I c -> I (with_db (write row) (implicit_begin c)).
Hypothesis I_commit : forall c, I c -> I (commit c).
Hypothesis I_rollback : forall c, I c -> I (rollback c).

Lemma steady_executemany_into rows : steady I (executemany_into fails write rows).
Proof.
  induction rows as [|row rows IH]; cbn; [apply steady_ret|].
  apply steady_bind; [|done]. apply steady_attempt. apply I_write.
Qed.

Lemma steady_batch_loop batch (parse : csv_row -> option (Z * V)) reader rows :
  steady I (batch_loop fails batch parse write reader rows).
Proof.
  revert rows.
  induction reader as [|r reader IH]; intros rows; cbn;
    (apply steady_bind; [by apply steady_attempt|intros _]).
  - destruct rows; [apply steady_ret|apply steady_executemany_into].
  - destruct (parse r); [|apply IH].
    case_decide; [|apply IH].
    apply steady_bind; [apply steady_executemany_into|intros _; apply IH].
Qed.

Lemma steady_with_con {A} (body : M A) : steady I body -> steady I (with_con fails body).
Proof.
  intros Hbody. apply steady_try_except.
  - apply steady_bind; [done|intros a].
    apply steady_bind; [by apply steady_attempt|intros _; apply steady_ret].
  - intros e. apply steady_bind; [by apply steady_run|intros _; apply steady_raise].
Qed.

Lemma steady_import (parse : csv_row -> option (Z * V)) reader :
  steady I (attempt fails ReadError id ;;
            with_con fails (batch_loop fails BATCH_SIZE parse write reader []))%py.
Proof.
  apply steady_bind; [by apply steady_attempt|intros _].
  apply steady_with_con, steady_batch_loop.
Qed.

End Keeps.

(** A failed import gives back the database the transaction started from. *)
Lemma import_atomic {V} (parse : csv_row -> option (Z * V)) write reader d0 :
  triple (fun c => db c = d0 /\ journal c = None)
    (attempt fails ReadError id ;;
     with_con fails (batch_loop fails BATCH_SIZE parse write reader []))%py
    (fun r c => journal c = None /\
                match r with Raise _ => db c = d0 | Return _ => True end).
Proof.
  set (J := fun c : connection => default (db c) (journal c) = d0).
  eapply (triple_bind _ (fun _ c => db c = d0 /\ journal c = None)).
  { apply triple_attempt; [done|]. by intros c n [-> ->]. }
  intros _ w [Hd Hj]. unfold with_con, try_except.
  assert (triple J (a <- batch_loop fails BATCH_SIZE parse write reader [];;
                    attempt fails DatabaseError commit;; ret a)%py
            (fun r c => match r with Return _ => journal c = None | Raise _ => J c end))
    as Hinner.
  { eapply (triple_bind _ (fun _ => J)).
    - apply steady_weaken; [|done]. apply steady_batch_loop.
      intros row c Hc. unfold J in *. cbn. done.
    - intros a. eapply (triple_bind _ (fun _ c => journal c = None)).
      + apply triple_attempt; [done|]. by intros c n Hc.
      + intros _ w1 Hw1. done. }
  specialize (Hinner w). cbn beta in Hinner.
  destruct ((a <- batch_loop fails BATCH_SIZE parse write reader [];;
             attempt fails DatabaseError commit;; ret a)%py w) as [[a|e] w1].
  - cbn in *. split; [|done]. apply Hinner. unfold J. by rewrite Hj.
  - cbn in *. split; [done|]. apply Hinner. unfold J. by rewrite Hj.
Qed.

(** X19.  A reference import that raises stores nothing: whatever statement
    raises (the opening of the file, a read, an INSERT, the commit), with no
    transaction open when the import starts, the database is afterwards the
    one the import found, and no transaction is left open. *)
Theorem failed_import_rolls_back (reader : list csv_row) (w : world) (e : exn) :
  journal (con w) = None ->
  let rolled_back (import : list csv_row -> M unit) :=
    (import reader w).1 = Raise e ->
    db (con (import reader w).2) = db (con w) /\
    journal (con (import reader w).2) = None in
  rolled_back (import_csv_invTypes fails) /\
  rolled_back (import_csv_mapRegions fails) /\
  rolled_back (import_csv_mapConstellations fails) /\
  rolled_back (import_csv_mapSolarSystems fails).
Proof.
  intros Hj. cbv beta zeta.
  split; [|split; [|split]]; intros Hr;
    unfold import_csv_invTypes, import_csv_mapRegions,
      import_csv_mapConstellations, import_csv_mapSolarSystems in Hr |- *;
    match goal with
    | |- context [batch_loop fails BATCH_SIZE ?parse ?write reader []] =>
        pose proof (import_atomic parse write reader (db (con w)) w
                      (conj eq_refl Hj)) as Hw
    end;
    cbn beta in Hw; rewrite Hr in Hw; tauto.
Qed.

(** *** Well-formed fact rows through a refresh *)

Lemma well_formed_store_keeps {V} (write : Z * V -> database -> database) :
  (forall row d, planets (write row d) = planets d) ->
  (forall row c, well_formed_store c ->
                 well_formed_store (with_db (write row) (implicit_begin c))) /\
  (forall c, well_formed_store c -> well_formed_store (commit c)) /\
  (forall c, well_formed_store c -> well_formed_store (rollback c)).
Proof.
  intros Hw. unfold well_formed_store. split; [|split].
  - intros row c [Hdb Hj]. cbn. rewrite Hw. split; [done|].
    intros j [= <-]. destruct (journal c) as [j|]; cbn; [by apply Hj|done].
  - intros c [Hdb Hj]. by cbn.
  - intros c [Hdb Hj]. cbn. split; [|done].
    destruct (journal c) as [j|]; cbn; [by apply Hj|done].
Qed.

Lemma steady_reference_import {V} (parse : csv_row -> option (Z * V)) write reader :
  (forall row d, planets (write row d) = planets d) ->
  steady well_formed_store
    (attempt fails ReadError id ;;
     with_con fails (batch_loop fails BATCH_SIZE parse write reader []))%py.
Proof.
  intros Hw. destruct (well_formed_store_keeps write Hw) as (? & ? & ?).
  by apply steady_import.
Qed.

Lemma clear_tail_triple :
  triple (fun c => map_Forall well_formed_body (planets (db c)))
    (execute_dml fails (with_invTypes ∅) ;;
     execute_dml fails (with_mapSolarSystems ∅) ;;
     execute_dml fails (with_mapConstellations ∅) ;;
     execute_dml fails (with_mapRegions ∅) ;;
     attempt fails DatabaseError commit)%py
    (fun r c => match r with
                | Return _ => well_formed_store c
                | Raise _ => map_Forall well_formed_body (planets (db c))
                end).
Proof.
  do 4 (eapply (triple_bind _ (fun _ c => map_Forall well_formed_body (planets (db c))));
        [by apply triple_attempt|intros _]).
  apply triple_attempt; [|done]. intros c Hc. by split.
Qed.

Lemma clear_all_triple :
  triple (fun c => map_Forall well_formed_body (planets (db c))) (clear_all fails)
    (fun r c => match r with
                | Return _ => well_formed_store c
                | Raise _ => map_Forall well_formed_body (planets (db c))
                end).
Proof.
  unfold clear_all.
  eapply (triple_bind _ (fun _ c => map_Forall well_formed_body (planets (db c)))).
  - apply triple_attempt; [|done]. intros c _. cbn. apply map_Forall_empty.
  - intros _. apply clear_tail_triple.
Qed.

(** Once the first DELETE has run, the fact rows the connection shows are
    well formed whatever they were. *)
Lemma clear_all_establishes w :
  fails (clock w) = false ->
  match (clear_all fails w).1 with
  | Return _ => well_formed_store (con (clear_all fails w).2)
  | Raise _ => map_Forall well_formed_body (planets (db (con (clear_all fails w).2)))
  end.
Proof.
  intros Hf.
  assert (clear_all fails w
          = (execute_dml fails (with_invTypes ∅) ;;
             execute_dml fails (with_mapSolarSystems ∅) ;;
             execute_dml fails (with_mapConstellations ∅) ;;
             execute_dml fails (with_mapRegions ∅) ;;
             attempt fails DatabaseError commit)%py
              {| con := with_db (with_planets ∅) (implicit_begin (con w));
                 clock := S (clock w) |}) as ->.
  { unfold clear_all. unfold bind at 1, execute_dml at 1, attempt at 1.
    by rewrite Hf. }
  apply clear_tail_triple. cbn. apply map_Forall_empty.
Qed.

Lemma rebuild_triple reader :
  triple well_formed_store (build_planets_from_mapDenormalize fails reader)
    (fun _ c => map_Forall well_formed_body (planets (db c))).
Proof.
  intros w [Hdb _].
  destruct (build_planets_cases fails reader w) as [Hd|Hd]; rewrite Hd; [done|].
  cbn. apply executemany_Forall; [apply accepted_well_formed|done].
Qed.

Lemma imports_and_rebuild_triple local_paths :
  triple well_formed_store
    (import_csv_invTypes fails (invTypes_csv local_paths) ;;
     import_csv_mapRegions fails (mapRegions_csv local_paths) ;;
     import_csv_mapConstellations fails (mapConstellations_csv local_paths) ;;
     import_csv_mapSolarSystems fails (mapSolarSystems_csv local_paths) ;;
     build_planets_from_mapDenormalize fails (mapDenormalize_csv local_paths))%py
    (fun _ c => map_Forall well_formed_body (planets (db c))).
Proof.
  do 4 (eapply (triple_bind _ (fun _ => well_formed_store));
        [apply steady_weaken;
           [by apply steady_reference_import|by intros c [? _]]
        |intros _]).
  apply rebuild_triple.
Qed.

Lemma work_preserves remote :
  triple (fun c => map_Forall well_formed_body (planets (db c))) (work fails remote)
    (fun _ c => map_Forall well_formed_body (planets (db c))).
Proof.
  unfold work.
  eapply (triple_bind _ (fun _ c => map_Forall well_formed_body (planets (db c)))).
  { apply steady_weaken; [apply steady_download_all|done]. }
  intros local_paths.
  eapply (triple_bind _ (fun _ => well_formed_store));
    [apply clear_all_triple|intros _; apply imports_and_rebuild_triple].
Qed.

Lemma work_establishes remote w local_paths w1 :
  download_all fails remote w = (Return local_paths, w1) ->
  fails (clock w1) = false ->
  map_Forall well_formed_body (planets (db (con (work fails remote w).2))).
Proof.
  intros Hd Hf. unfold work. unfold bind at 1. rewrite Hd.
  pose proof (clear_all_establishes w1 Hf) as Hc. unfold bind at 1.
  destruct (clear_all fails w1) as [[[]|e] w2]; cbn in Hc; [|done].
  by apply (imports_and_rebuild_triple local_paths w2).
Qed.

(** X15.  A refresh whose rebuild raises, after the downloads and the
    reference imports have returned, leaves the newly imported reference
    tables and an empty fact table, not the catalog it started from; the
    indices and the three settings are as before. *)
Theorem failed_refresh_leaves_imports (remote local_paths : sources)
    (w w1 w2 : world) (e : exn) :
  download_all fails remote w = (Return local_paths, w1) ->
  reference_load fails local_paths w1 = (Return tt, w2) ->
  let result := work fails remote w in
  result.1 = Raise e ->
  db (con result.2) = imported remote (db (con w)) /\
  planets (db (con result.2)) = ∅ /\
  indices (db (con result.2)) = indices (db (con w)) /\
  synchronous (con result.2) = synchronous (con w) /\
  temp_store (con result.2) = temp_store (con w) /\
  cache_size (con result.2) = cache_size (con w).
Proof.
  intros Hd Hl result Hr.
  destruct (download_all_returns _ _ _ _ Hd) as [-> Hc1].
  assert (result = build_planets_from_mapDenormalize fails
                     (mapDenormalize_csv remote) w2) as Hres.
  { unfold result. rewrite work_unfold. unfold bind at 1. rewrite Hd.
    unfold bind. by rewrite Hl. }
  apply returns_as_reference_load in Hl.
  destruct (reference_load_ok remote w1) as [_ Hc]. rewrite Hl in Hc. cbn in Hc.
  rewrite Hres in Hr |- *.
  destruct (build_planets_atomic fails PLANET_BATCH_SIZE
              (mapDenormalize_csv remote) w2)
    as (_ & Hs & Ht & Hz & _ & Hdb).
  unfold build_planets_from_mapDenormalize in *. specialize (Hdb e Hr).
  rewrite Hdb, Hs, Ht, Hz, Hc, Hc1. done.
Qed.

(** X16.  A refresh keeps the fact rows well formed when they were, whatever
    fails; once the five downloads have returned and the first DELETE of
    [clear_all] has run, the fact rows are well formed after the refresh
    whatever the database held and whatever fails later; and a refresh whose
    download raises leaves the connection as it was.  With well-formed fact
    rows the first value of a region, constellation or system row is the
    plain count of its fact rows, with and without the type breakdown. *)
Theorem refreshed_totals_agree (remote : sources) (w : world) :
  let result := work fails remote w in
  let d := db (con result.2) in
  let agree :=
    map_Forall well_formed_body (planets d) /\
    forall id show_types,
      head (region_values show_types d id)
      = Some (Number (count_planets_region d id)) /\
      head (constellation_values show_types d id)
      = Some (Number (count_planets_constellation d id)) /\
      head (system_values d id) = Some (Number (length (planets_in_system d id))) in
  (map_Forall well_formed_body (planets (db (con w))) -> agree) /\
  (forall local_paths w1,
     download_all fails remote w = (Return local_paths, w1) ->
     fails (clock w1) = false -> agree) /\
  (forall e w1,
     download_all fails remote w = (Raise e, w1) ->
     result.1 = Raise e /\ con result.2 = con w).
Proof.
  intros result d agree.
  assert (map_Forall well_formed_body (planets d) -> agree) as Hagree.
  { intros Hwf. split; [done|]. intros id show_types.
    destruct (totals_agree d id Hwf) as (Hr & Hc & Hs).
    unfold region_values, constellation_values, system_values, breakdown_values,
      total_values.
    destruct show_types; cbn [head app]; by rewrite ?Hr, ?Hc, ?Hs. }
  split; [|split].
  - intros Hwf. apply Hagree. by apply (work_preserves remote w).
  - intros local_paths w1 Hd Hf. apply Hagree.
    by apply (work_establishes remote w local_paths w1).
  - intros e w1 Hd.
    pose proof (steady_download_all (fun c => c = con w) remote w eq_refl) as Hc.
    rewrite Hd in Hc. cbn in Hc.
    assert (result = (Raise e, w1)) as ->; [|done].
    unfold result, work. unfold bind at 1. by rewrite Hd.
Qed.

End RefreshFacts.

(** X17.  Every region, constellation and system row has one value per
    column, and the counts of a breakdown have exactly the ten categories as
    keys, whatever is stored. *)
Theorem value_rows_shape (d : database) (id : Z) (show_types : bool) :
  length (region_values show_types d id) = length COL_HEADERS /\
  length (constellation_values show_types d id) = length COL_HEADERS /\
  length (system_values d id) = length COL_HEADERS /\
  dom (counts_by_category_region d id) = list_to_set PLANET_TYPES /\
  dom (counts_by_category_constellation d id) = list_to_set PLANET_TYPES /\
  dom (counts_by_category_system d id) = list_to_set PLANET_TYPES.
Proof.
  split; [by destruct show_types|]. split; [by destruct show_types|].
  split; [done|]. repeat split; apply tally_groups_keys.
Qed.

Section RefreshTwice.
Context `{Builtins}.

(** X14.  Refreshing again from the same files returns the same count and
    leaves the same database. *)
Theorem refresh_idempotent (local_paths : sources) (w : world) :
  let once := work no_failure local_paths w in
  let twice := work no_failure local_paths once.2 in
  twice.1 = once.1 /\ db (con twice.2) = db (con once.2).
Proof.
  intros once twice.
  destruct (work_ok local_paths w) as [Hn Hd]. fold once in Hn, Hd.
  destruct (work_ok local_paths once.2) as [Hn2 Hd2]. fold twice in Hn2, Hd2.
  rewrite (imported_type_map local_paths (db (con once.2)) (db (con w))) in Hn2, Hd2.
  split; [by rewrite Hn2, Hn|]. rewrite Hd2.
  destruct (imported_tables local_paths (db (con w)))
    as (Ht & Hr & Hc & Hs & Hp & Hi).
  destruct (imported_tables local_paths (db (con once.2)))
    as (Ht2 & Hr2 & Hc2 & Hs2 & Hp2 & Hi2).
  assert (schema_ensured (imported local_paths (db (con once.2)))) as Hschema.
  { unfold schema_ensured. rewrite Hi2, Hd. apply rebuilt_schema_ensured. }
  apply database_ext;
    [rewrite Hd;
     cbn [mapRegions mapConstellations mapSolarSystems invTypes planets
          with_indices with_planets rebuilt]; congruence..|].
  rewrite (rebuilt_indices _ _ Hschema). exact Hi2.
Qed.

End RefreshTwice.

(** ** Item ids *)

Lemma append_cons c p s : String c p +:+ s = String c (p +:+ s).
Proof. reflexivity. Qed.

Lemma append_nil s : "" +:+ s = s.
Proof. reflexivity. Qed.

Lemma is_prefix_app p s : Text.is_prefix p (p +:+ s) = true.
Proof.
  induction p as [|c p IH]; [done|]. rewrite append_cons. cbn.
  by rewrite Ascii.eqb_refl.
Qed.

Lemma after_first_app sep kind s :
  after_first sep kind = None ->
  after_first sep (kind +:+ String sep s) = Some s.
Proof.
  induction kind as [|c kind IH]; rewrite ?append_cons, ?append_nil; cbn.
  - intros _. by rewrite Ascii.eqb_refl.
  - destruct (Ascii.eqb c sep); [done|]. exact IH.
Qed.

Lemma iid_unfold kind id_ :
  _iid kind id_ = kind +:+ String ":"%char (py_str id_).
Proof. reflexivity. Qed.

Lemma iid_prefix kind id_ : _iid kind id_ = (kind +:+ ":") +:+ py_str id_.
Proof.
  unfold _iid. induction kind as [|c kind IH]; [done|].
  rewrite !append_cons. by f_equal.
Qed.

Lemma other_kind_no_prefix kind kind' s :
  after_first ":"%char kind = None -> after_first ":"%char kind' = None ->
  kind' <> kind ->
  Text.is_prefix (kind' +:+ ":") (kind +:+ String ":"%char s) = false.
Proof.
  revert kind. induction kind' as [|c' kind' IH]; intros [|c kind] Hk Hk' Hne;
    rewrite ?append_cons, ?append_nil; cbn [Text.is_prefix after_first] in *.
  - done.
  - destruct (Ascii.eqb_spec c ":"%char) as [->|Hc]; [done|].
    destruct (Ascii.eqb_spec ":"%char c) as [Heq|]; [by destruct Hc|done].
  - destruct (Ascii.eqb_spec c' ":"%char) as [->|Hc]; done.
  - destruct (Ascii.eqb c ":"%char); [done|].
    destruct (Ascii.eqb c' ":"%char); [done|].
    destruct (Ascii.eqb_spec c' c) as [->|Hc]; [|done].
    apply IH; [done|done|]. intros ->. by apply Hne.
Qed.

Section ItemIds.
Context `{Builtins}.

(** X18.  [_parse_iid] gives back the id that [_iid] put into an item id, and
    0 when asked for another kind, for kinds without a colon. *)
Theorem parse_iid_of_iid (kind : string) (id_ : Z) :
  after_first ":"%char kind = None ->
  py_int (py_str id_) = Some id_ ->
  _parse_iid (_iid kind id_) kind = id_ /\
  forall kind', after_first ":"%char kind' = None -> kind' <> kind ->
                _parse_iid (_iid kind id_) kind' = 0%Z.
Proof.
  intros Hkind Hint. split.
  - unfold _parse_iid. rewrite iid_prefix at 2. rewrite is_prefix_app.
    rewrite iid_unfold, after_first_app by done. cbn. rewrite Hint.
    by destruct kind.
  - intros kind' Hkind' Hne. unfold _parse_iid.
    rewrite iid_unfold, other_kind_no_prefix by done.
    by rewrite andb_false_r.
Qed.

End ItemIds.

Lemma parse_iid_of_iid_witness :
  _parse_iid (H := Sample.builtins) (_iid "const" 20000001) "const" = 20000001%Z /\
  _parse_iid (H := Sample.builtins) (_iid "const" 20000001) "system" = 0%Z.
Proof.
  destruct (parse_iid_of_iid (H := Sample.builtins) "const" 20000001%Z)
    as [Hsame Hother]; [reflexivity|by vm_compute|].
  split; [exact Hsame|]. apply Hother; [reflexivity|discriminate].
Defined.

(** ** The facts above at concrete inputs *)

Lemma imports_ignore_row_order_witness :
  import_csv_mapRegions (H := Sample.builtins) no_failure
    [Scenario.metropolis; Download.heimatar] (Scenario.opened Scenario.empty)
  = import_csv_mapRegions (H := Sample.builtins) no_failure
      [Download.heimatar; Scenario.metropolis] (Scenario.opened Scenario.empty).
Proof.
  destruct (imports_ignore_row_order (H := Sample.builtins)
              [Scenario.metropolis; Download.heimatar]
              [Download.heimatar; Scenario.metropolis]
              (Scenario.opened Scenario.empty))
    as (_ & Hregions & _).
  - apply perm_swap.
  - apply Hregions. apply (bool_decide_unpack _). by vm_compute.
Defined.

Lemma names_of_listed_rows_witness :
  let d :=
    db (con (import_csv_mapRegions (H := Sample.builtins) no_failure
               [Scenario.metropolis] (Scenario.opened Scenario.empty)).2) in
  region_name d 10000002 = Some "Metropolis" /\
  region_name d 10000030 = Some "10000030".
Proof.
  intros d.
  destruct (names_of_listed_rows d) as (Hlisted & _ & _ & Hmissing & _).
  split.
  - apply Hlisted. vm_compute. left.
  - apply (Hmissing 10000030%Z). by vm_compute.
Defined.

Lemma rebuild_success_is_complete_witness :
  let result :=
    build_planets_from_mapDenormalize (H := Sample.builtins) Download.fails_later
      Scenario.three_bodies (Scenario.opened Scenario.typed) in
  (3 = length (omap (planet_row (H := Sample.builtins)
                       (load_type_map Scenario.typed)) Scenario.three_bodies))%nat /\
  size (planets (db (con result.2))) = 3%nat.
Proof.
  intros result.
  destruct (rebuild_success_is_complete (H := Sample.builtins) Download.fails_later
              Scenario.three_bodies (Scenario.opened Scenario.typed) 3%nat)
    as (Hcount & Hplanets & _).
  - by vm_compute.
  - split; [exact Hcount|]. unfold result. rewrite Hplanets. by vm_compute.
Defined.

Lemma rebuild_keeps_reference_tables_witness :
  let result :=
    build_planets_from_mapDenormalize (H := Sample.builtins)
      Download.second_read_fails Scenario.three_bodies Download.ensured in
  invTypes (db (con result.2)) = invTypes (db (con Download.ensured)) /\
  indices (db (con result.2)) = indices (db (con Download.ensured)).
Proof.
  intros result.
  destruct (rebuild_keeps_reference_tables (H := Sample.builtins)
              Download.second_read_fails Scenario.three_bodies Download.ensured)
    as (_ & _ & _ & Htypes & Hindices).
  split; [exact Htypes|]. apply Hindices.
  repeat split; apply (bool_decide_unpack _); by vm_compute.
Defined.

Lemma rebuild_keeps_well_formed_witness :
  map_Forall well_formed_body
    (planets (db (con (build_planets_from_mapDenormalize (H := Sample.builtins)
                         Download.fails_later Scenario.three_bodies
                         (Scenario.opened Scenario.typed)).2))).
Proof.
  apply (rebuild_keeps_well_formed (H := Sample.builtins) Download.fails_later
           Scenario.three_bodies (Scenario.opened Scenario.typed)).
  change (planets (db (con (Scenario.opened Scenario.typed)))) with (∅ : gmap Z planet).
  apply map_Forall_empty.
Defined.

Lemma rebuild_ignores_row_order_witness :
  let a := Scenario.body [("itemID", "40000001")] in
  let b := Scenario.body [("itemID", "40000002")] in
  let w := Scenario.opened Scenario.typed in
  (build_planets_from_mapDenormalize (H := Sample.builtins) no_failure [a; b] w).1
  = (build_planets_from_mapDenormalize (H := Sample.builtins) no_failure [b; a] w).1 /\
  db (con (build_planets_from_mapDenormalize (H := Sample.builtins) no_failure
             [a; b] w).2)
  = db (con (build_planets_from_mapDenormalize (H := Sample.builtins) no_failure
               [b; a] w).2).
Proof.
  intros a b w.
  apply (rebuild_ignores_row_order (H := Sample.builtins) [a; b] [b; a] w).
  - apply (bool_decide_unpack _). by vm_compute.
  - apply perm_swap.
Defined.

Lemma planet_type_lookup_witness :
  exists p,
    planet_row (H := Sample.builtins) (load_type_map Scenario.typed)
      Download.unknown_type = Some (40000009%Z, p) /\
    typeName p = None /\ category p = Some "Barren".
Proof.
  eexists. split; [by vm_compute|].
  destruct (planet_type_lookup (H := Sample.builtins) Scenario.typed
              Download.unknown_type 40000009%Z _ eq_refl)
    as (t & Ht & _ & _ & Hunknown).
  apply Hunknown. intros ty Hty. vm_compute in Ht. injection Ht as <-.
  vm_compute in Hty. discriminate Hty.
Defined.

Lemma failed_refresh_leaves_imports_witness :
  let result :=
    work (H := Sample.builtins) Download.second_read_fails_loaded Download.files
      Scenario.loaded in
  result.1 = Raise (ReadError 66) /\
  size (planets (db (con Scenario.loaded))) = 1%nat /\
  planets (db (con result.2)) = ∅ /\
  (list_regions (db (con result.2))).*2 = ["Heimatar"; "Metropolis"].
Proof.
  intros result.
  destruct (failed_refresh_leaves_imports (H := Sample.builtins)
              Download.second_read_fails_loaded Download.files Download.files
              Scenario.loaded {| con := con Scenario.loaded; clock := 32 |}
              (reference_load (H := Sample.builtins)
                 Download.second_read_fails_loaded Download.files
                 {| con := con Scenario.loaded; clock := 32 |}).2
              (ReadError 66))
    as (Hdb & Hplanets & _); [by vm_compute..|].
  split; [by vm_compute|]. split; [by vm_compute|]. split; [exact Hplanets|].
  unfold result. rewrite Hdb. by vm_compute.
Defined.

(** A refresh of a database that holds a foreign category, in which the
    first import raises: the fact rows are gone and the totals agree. *)
Lemma refreshed_totals_agree_witness :
  let result :=
    work (H := Sample.builtins) Download.type_insert_fails Download.files
      (Scenario.opened Scenario.foreign_category) in
  let d := db (con result.2) in
  result.1 = Raise (DatabaseError 29) /\
  head (region_values true d 10000002)
  = Some (Number (count_planets_region d 10000002)).
Proof.
  intros result d. split; [by vm_compute|].
  destruct (refreshed_totals_agree (H := Sample.builtins)
              Download.type_insert_fails Download.files
              (Scenario.opened Scenario.foreign_category))
    as (_ & Hestablished & _).
  destruct (Hestablished Download.files
              {| con := con (Scenario.opened Scenario.foreign_category);
                 clock := 20 |})
    as [_ Htotals]; [by vm_compute|by vm_compute|].
  destruct (Htotals 10000002%Z true) as [Hregion _]. exact Hregion.
Defined.

(** An import of two regions whose second INSERT raises stores neither. *)
Lemma failed_import_rolls_back_witness :
  let result :=
    import_csv_mapRegions (H := Sample.builtins) Download.second_row_fails
      [Scenario.metropolis; Download.heimatar] (Scenario.opened Scenario.empty) in
  result.1 = Raise (DatabaseError 5) /\
  db (con result.2) = Scenario.empty /\
  journal (con result.2) = None.
Proof.
  intros result. split; [by vm_compute|].
  destruct (failed_import_rolls_back (H := Sample.builtins)
              Download.second_row_fails [Scenario.metropolis; Download.heimatar]
              (Scenario.opened Scenario.empty) (DatabaseError 5) eq_refl)
    as (_ & Hregions & _).
  apply Hregions. by vm_compute.
Defined.

Example refresh_scenario :
  let result :=
    work (H := Sample.builtins) no_failure Download.files Scenario.loaded in
  result.1 = Return 2%nat /\
  total_planets (db (con result.2)) = 2%nat /\
  region_values true (db (con result.2)) 10000002
  = [Number 2; Number 0; Number 0; Number 0; Number 0; Number 2; Number 0;
     Number 0; Number 0; Number 0; Number 0; Blank] /\
  region_values false (db (con result.2)) 10000002
  = [Number 2; Blank; Blank; Blank; Blank; Blank; Blank; Blank; Blank; Blank;
     Blank; Blank].
Proof. by vm_compute. Qed.
